(** * Shallow embedding of src/src/main.c (nRF9151 Sateliot NTN firmware v3.2)

    The connectivity orchestrator of [main.c]: its global state
    ([current_state], [current_attachment_step], [config], the two
    semaphores, [last_gps_data], [payload_buffer]), its helper routines and
    one pass of the main [while (1)] loop.

    Modelling conventions.
    - C [int] / [int64_t] / [size_t] values are [Z]; the values the code
      computes stay far inside their ranges (hours, milliseconds of uptime,
      attempt counters), so no wrap-around is written out.
    - C [double] values are modelled as exact rationals [Q]; the casts
      [(int)] / [(int64_t)] truncate toward zero ([trunc_Q]).
    - The kernel, modem library and libc are collaborators: their outcomes
      (semaphore signals, AT command results, [rand()] values, socket
      results, the text [snprintf] renders) are inputs of an [env] record.
    - Effects are a state monad over [world]; every kernel call that the
      claims talk about leaves an [event] in the world's trace. *)

From Stdlib Require Import ZArith QArith Qabs List String Ascii Bool Lia Lqa.
Import ListNotations.
Open Scope Z_scope.

(* ================================================================= *)
(** ** Configuration constants *)

Definition PAYLOAD_BUFFER_SIZE : Z := 256.
Definition MIN_SATELLITE_PASS_DURATION_MS : Z := 30 * 1000.
Definition MAX_SATELLITE_PASS_DURATION_MS : Z := 8 * 60 * 1000.
Definition TLE_UPDATE_INTERVAL_HOURS : Z := 24.
Definition MAX_ERROR_RECOVERY_ATTEMPTS : Z := 3.
Definition MIN_BUFFER_SIZE_TELEMETRY : Z := 128.
Definition TELEMETRY_SAFETY_MARGIN : Z := 32.

(** Watchdog channel configuration of [setup_watchdog]: [.window.max]. *)
Definition WDT_WINDOW_MAX_MS : Z := 60000.

(** errno values (newlib numbering); only their distinctness matters. *)
Definition EIO : Z := 5.
Definition EAGAIN : Z := 11.
Definition ENOMEM : Z := 12.
Definition EFAULT : Z := 14.
Definition ENODEV : Z := 19.
Definition EINVAL : Z := 22.
Definition ENODATA : Z := 61.

Inductive integration_phase := PHASE_TN_TESTING | PHASE_NTN_TESTING.
Definition CURRENT_INTEGRATION_PHASE : integration_phase := PHASE_NTN_TESTING.

(* ================================================================= *)
(** ** Enumerations and structures *)

Inductive app_state :=
| STATE_INIT
| STATE_GETTING_GPS_FIX
| STATE_IDLE
| STATE_ATTEMPTING_CONNECTION_STEP1
| STATE_ATTEMPTING_CONNECTION_STEP2
| STATE_SENDING_DATA
| STATE_ERROR
| STATE_RECOVERY
| STATE_TLE_UPDATE.

Definition app_state_eq_dec (a b : app_state) : {a = b} + {a <> b}.
Proof. decide equality. Defined.

Definition app_state_eqb (a b : app_state) : bool :=
  if app_state_eq_dec a b then true else false.

Inductive attachment_step := ATTACH_STEP_1 | ATTACH_STEP_2 | ATTACH_COMPLETE.

Record sateliot_tle := mk_tle {
  satellite_name : string;
  line1 : string;
  line2 : string;
  epoch_time : Z;
  valid : bool
}.

Record satellite_pass := mk_pass {
  start_time : Z;
  end_time : Z;
  max_elevation : Z;
  satellite_id : Z;
  is_predicted : bool
}.

Record tle_update_config := mk_tle_config {
  last_update_time : Z;
  update_interval_hours : Z;
  update_needed : bool;
  consecutive_failures : Z
}.

Record error_recovery_state := mk_recovery {
  recovery_attempts : Z;
  last_recovery_time : Z;
  last_good_state : app_state;
  modem_reset_needed : bool
}.

Record sateliot_config := mk_config {
  server_ip : string;
  server_port : Z;
  device_lat : Q;
  device_lon : Q;
  device_alt : Q;
  satellites : list sateliot_tle;   (** [struct sateliot_tle satellites[4]] *)
  gps_coordinates_valid : bool;
  tle_config : tle_update_config;
  recovery : error_recovery_state
}.

(** The AT commands the firmware sends with [nrf_modem_at_printf]; the
    [XSETGPSPOS] command carries its three integer parameters. *)
Inductive at_cmd :=
| AT_CFUN_12                           (** "AT+CFUN=12" *)
| AT_XBANDLOCK_64                      (** "AT%xbandlock=1,<band 64 mask>" *)
| AT_CHSELECT                          (** "AT%CHSELECT=2,9,66296" *)
| AT_XNTNFEAT                          (** "AT%XNTNFEAT=0,1" *)
| AT_XSETGPSPOS (lon lat alt : Z)      (** "AT%XSETGPSPOS=lon,lat,alt" *)
| AT_COPS_SATELIOT                     (** "AT+COPS=1,2,\"90197\"" *)
| AT_CFUN_15.                          (** "AT+CFUN=15" *)

(** Events left in the trace by the kernel / modem calls. *)
Inductive event :=
| EvFeed                          (** [wdt_feed] *)
| EvClock                         (** [k_uptime_get] *)
| EvSleep (ms : Z)                (** [k_sleep] *)
| EvWait (timeout elapsed : Z)    (** [k_sem_take] with a finite timeout *)
| EvSleepForever                  (** [k_sleep(K_FOREVER)] *)
| EvAt (c : at_cmd)               (** [nrf_modem_at_printf] *)
| EvOffline                       (** [lte_lc_offline] *)
| EvConnect                       (** [lte_lc_connect_async] *)
| EvSendto                        (** [sendto] *)
| EvTransition (from to : app_state).  (** the [LOG_INF] of [set_state] *)

(** The fields of a PVT frame ([struct nrf_modem_gnss_pvt_data_frame]) the firmware uses. *)
Record gnss_fix := mk_fix {
  fix_lat : Q;
  fix_lon : Q;
  fix_alt : Q;
  fix_sv_count : Z
}.

(** The whole mutable state the firmware threads through [main]. *)
Record world := mk_world {
  current_state : app_state;
  current_attachment_step : attachment_step;
  config : sateliot_config;
  uptime : Z;                 (** what [k_uptime_get] returns, in ms *)
  lte_connected_sem : Z;      (** count of [lte_connected_sem] (limit 1) *)
  gps_fix_sem : Z;            (** count of [gps_fix_sem] (limit 1) *)
  gps_fix_flag : bool;        (** [last_gps_data.flags & FIX_VALID] *)
  last_gps_data : gnss_fix;
  payload_buffer : list ascii;
  next_pass : satellite_pass; (** the local [next_pass] of [main] *)
  trace : list event          (** most recent event first *)
}.

(* ================================================================= *)
(** ** Record updates *)

Definition with_lgs (s : app_state) (r : error_recovery_state) :=
  mk_recovery (recovery_attempts r) (last_recovery_time r) s (modem_reset_needed r).
Definition with_attempts (n : Z) (r : error_recovery_state) :=
  mk_recovery n (last_recovery_time r) (last_good_state r) (modem_reset_needed r).
Definition with_recovery_time (t : Z) (r : error_recovery_state) :=
  mk_recovery (recovery_attempts r) t (last_good_state r) (modem_reset_needed r).

Definition with_failures (n : Z) (t : tle_update_config) :=
  mk_tle_config (last_update_time t) (update_interval_hours t) (update_needed t) n.

Definition map_recovery (f : error_recovery_state -> error_recovery_state)
    (c : sateliot_config) :=
  mk_config (server_ip c) (server_port c) (device_lat c) (device_lon c)
    (device_alt c) (satellites c) (gps_coordinates_valid c) (tle_config c)
    (f (recovery c)).
Definition map_tle_config (f : tle_update_config -> tle_update_config)
    (c : sateliot_config) :=
  mk_config (server_ip c) (server_port c) (device_lat c) (device_lon c)
    (device_alt c) (satellites c) (gps_coordinates_valid c) (f (tle_config c))
    (recovery c).
Definition with_coordinates (lat lon alt : Q) (c : sateliot_config) :=
  mk_config (server_ip c) (server_port c) lat lon alt (satellites c) true
    (tle_config c) (recovery c).

Definition map_config (f : sateliot_config -> sateliot_config) (w : world) :=
  mk_world (current_state w) (current_attachment_step w) (f (config w))
    (uptime w) (lte_connected_sem w) (gps_fix_sem w) (gps_fix_flag w)
    (last_gps_data w) (payload_buffer w) (next_pass w) (trace w).
Definition with_current_state (s : app_state) (w : world) :=
  mk_world s (current_attachment_step w) (config w)
    (uptime w) (lte_connected_sem w) (gps_fix_sem w) (gps_fix_flag w)
    (last_gps_data w) (payload_buffer w) (next_pass w) (trace w).
Definition with_attachment_step (a : attachment_step) (w : world) :=
  mk_world (current_state w) a (config w)
    (uptime w) (lte_connected_sem w) (gps_fix_sem w) (gps_fix_flag w)
    (last_gps_data w) (payload_buffer w) (next_pass w) (trace w).
Definition with_uptime (t : Z) (w : world) :=
  mk_world (current_state w) (current_attachment_step w) (config w)
    t (lte_connected_sem w) (gps_fix_sem w) (gps_fix_flag w)
    (last_gps_data w) (payload_buffer w) (next_pass w) (trace w).
Definition with_lte_sem (n : Z) (w : world) :=
  mk_world (current_state w) (current_attachment_step w) (config w)
    (uptime w) n (gps_fix_sem w) (gps_fix_flag w)
    (last_gps_data w) (payload_buffer w) (next_pass w) (trace w).
Definition with_gps_sem (n : Z) (w : world) :=
  mk_world (current_state w) (current_attachment_step w) (config w)
    (uptime w) (lte_connected_sem w) n (gps_fix_flag w)
    (last_gps_data w) (payload_buffer w) (next_pass w) (trace w).
Definition with_gps_data (flag : bool) (d : gnss_fix) (w : world) :=
  mk_world (current_state w) (current_attachment_step w) (config w)
    (uptime w) (lte_connected_sem w) (gps_fix_sem w) flag
    d (payload_buffer w) (next_pass w) (trace w).
Definition with_payload (b : list ascii) (w : world) :=
  mk_world (current_state w) (current_attachment_step w) (config w)
    (uptime w) (lte_connected_sem w) (gps_fix_sem w) (gps_fix_flag w)
    (last_gps_data w) b (next_pass w) (trace w).
Definition with_next_pass (p : satellite_pass) (w : world) :=
  mk_world (current_state w) (current_attachment_step w) (config w)
    (uptime w) (lte_connected_sem w) (gps_fix_sem w) (gps_fix_flag w)
    (last_gps_data w) (payload_buffer w) p (trace w).
Definition push (e : event) (w : world) :=
  mk_world (current_state w) (current_attachment_step w) (config w)
    (uptime w) (lte_connected_sem w) (gps_fix_sem w) (gps_fix_flag w)
    (last_gps_data w) (payload_buffer w) (next_pass w) (e :: trace w).

(* ================================================================= *)
(** ** A state monad over [world] *)

Definition M (A : Type) : Type := world -> A * world.

Definition ret {A} (a : A) : M A := fun w => (a, w).
Definition bind {A B} (m : M A) (k : A -> M B) : M B :=
  fun w => let (a, w1) := m w in k a w1.

Declare Scope fw_scope.
Notation "x <- m ;; k" := (bind m (fun x => k))
  (at level 61, m at next level, right associativity) : fw_scope.
Notation "m ;; k" := (bind m (fun _ : unit => k))
  (at level 61, right associativity) : fw_scope.
Open Scope fw_scope.

Definition gets {A} (f : world -> A) : M A := fun w => (f w, w).
Definition modify (f : world -> world) : M unit := fun w => (tt, f w).
Definition emit (e : event) : M unit := modify (push e).
Definition skip : M unit := ret tt.

Definition get_config {A} (f : sateliot_config -> A) : M A :=
  gets (fun w => f (config w)).
Definition update_config (f : sateliot_config -> sateliot_config) : M unit :=
  modify (map_config f).

(* ================================================================= *)
(** ** Collaborators *)

Inductive nw_reg_status :=
| LTE_LC_NW_REG_NOT_REGISTERED
| LTE_LC_NW_REG_REGISTERED_HOME
| LTE_LC_NW_REG_SEARCHING
| LTE_LC_NW_REG_REGISTRATION_DENIED
| LTE_LC_NW_REG_UNKNOWN
| LTE_LC_NW_REG_REGISTERED_ROAMING
| LTE_LC_NW_REG_UICC_FAIL.

Inductive lte_lc_evt :=
| LTE_LC_EVT_NW_REG_STATUS (s : nw_reg_status)
| LTE_LC_EVT_CELL_UPDATE
| LTE_LC_EVT_OTHER.

(** The events [gnss_event_handler] receives: [NRF_MODEM_GNSS_EVT_PVT],
    with the result of its [nrf_modem_gnss_read], the [FIX_VALID] bit of
    the frame read and the frame's fields, or any other event. *)
Inductive gnss_evt :=
| GNSS_EVT_PVT (read_err : Z) (fix_valid : bool) (d : gnss_fix)
| GNSS_EVT_OTHER.

(** Outcome of one attempt of the [robust_data_send] loop. *)
Inductive send_outcome := SOCKET_FAILED | SENDTO_FAILED | SENDTO_OK.

(** What the collaborators do during one pass of the main loop. *)
Record env := mk_env {
  at_result : at_cmd -> Z;                 (** result of [nrf_modem_at_printf] *)
  gnss_signal : option (Z * gnss_fix);
    (** a frame with a valid fix, this many ms into the fix wait; frames
        without a fix that arrive during the wait only overwrite
        [last_gps_data], which nothing reads before the next pass, so they
        are delivered with the events of the next pass *)
  registration_signal : option Z;          (** a registration, this many ms into an attach wait *)
  background_lte : list lte_lc_evt;        (** LTE events delivered before the pass *)
  background_gnss : list gnss_evt;         (** GNSS events delivered before the pass *)
  rand_values : Z * Z * Z;                 (** the three [rand()] results of a prediction *)
  send_outcome_at : Z -> send_outcome;     (** outcome of send attempt [retry_count] *)
  render_telemetry : Z -> Q -> Q -> Q -> Z -> string
    (** the text [snprintf] renders from ts, lat, lon, alt, sats *)
}.

(* ================================================================= *)
(** ** Kernel primitives *)

Definition k_uptime_get : M Z := fun w => (uptime w, push EvClock w).

Definition advance (ms : Z) : M unit := modify (fun w => with_uptime (uptime w + ms) w).

Definition k_sleep (ms : Z) : M unit := advance ms;; emit (EvSleep ms).

Definition wdt_feed : M unit := emit EvFeed.

Definition lte_lc_offline : M unit := emit EvOffline.

Definition lte_lc_connect_async : M unit := emit EvConnect.

Definition at_printf (e : env) (c : at_cmd) : M Z := emit (EvAt c);; ret (at_result e c).

(** [k_sem_give] on a semaphore of limit 1. *)
Definition k_sem_give (get_count : world -> Z) (set_count : Z -> world -> world) : M unit :=
  modify (fun w => set_count (Z.min (get_count w + 1) 1) w).

(** [k_sem_take(sem, timeout)]: an available count is taken at once;
    otherwise the call blocks until a handler gives the semaphore
    ([arrival]: after [t] ms, [t < timeout]) or the timeout expires
    ([-EAGAIN]). *)
Definition k_sem_take (get_count : world -> Z) (set_count : Z -> world -> world)
    (timeout : Z) (arrival : option (Z * M unit)) : M Z :=
  let time_out := advance timeout;; emit (EvWait timeout timeout);; ret (- EAGAIN) in
  c <- gets get_count;;
  if 0 <? c then
    modify (set_count (c - 1));; emit (EvWait timeout 0);; ret 0
  else
    match arrival with
    | Some (t, handler) =>
        if (0 <=? t) && (t <? timeout) then
          advance t;; handler;;
          c1 <- gets get_count;;
          if 0 <? c1 then
            modify (set_count (c1 - 1));; emit (EvWait timeout t);; ret 0
          else
            advance (timeout - t);; emit (EvWait timeout timeout);; ret (- EAGAIN)
        else time_out
    | None => time_out
    end.

(** [(int)x] / [(int64_t)x] on a double: truncation toward zero. *)
Definition trunc_Q (q : Q) : Z := Z.quot (Qnum q) (Zpos (Qden q)).

(* ================================================================= *)
(** ** [set_state] *)

Definition is_error_or_recovery (s : app_state) : bool :=
  match s with STATE_ERROR | STATE_RECOVERY => true | _ => false end.

Definition set_state (new_state : app_state) : M unit :=
  cur <- gets current_state;;
  if negb (app_state_eqb new_state cur) then
    emit (EvTransition cur new_state);;
    (if negb (is_error_or_recovery cur)
     then update_config (map_recovery (with_lgs cur))
     else skip);;
    modify (with_current_state new_state)
  else skip.

(* ================================================================= *)
(** ** Configuration *)

Definition SATELIOT_1_LINE1 : string :=
  "1 60550U 24149CL 25071.82076637 .00007488 00000+0 68187-3 0 9999".
Definition SATELIOT_1_LINE2 : string :=
  "2 60550 97.7148 150.0635 0007556 170.3117 189.8251 14.95428546 31058".

Definition dummy_tle : sateliot_tle := mk_tle "" "" "" 0 false.

(** [snprintf(satellites[i].satellite_name, 15, "SATELIOT_%d", i + 1);
    satellites[i].valid = false;] : the other fields are left alone. *)
Definition rename_invalid (name : string) (t : sateliot_tle) : sateliot_tle :=
  mk_tle name (line1 t) (line2 t) (epoch_time t) false.

Definition initialize_sateliot_config : M Z :=
  sats <- get_config satellites;;
  let t0 := nth 0 sats dummy_tle in
  let sats' :=
    [ mk_tle "SATELIOT_1" SATELIOT_1_LINE1 SATELIOT_1_LINE2 (epoch_time t0) true;
      rename_invalid "SATELIOT_2" (nth 1 sats dummy_tle);
      rename_invalid "SATELIOT_3" (nth 2 sats dummy_tle);
      rename_invalid "SATELIOT_4" (nth 3 sats dummy_tle) ] in
  update_config (fun c =>
    mk_config
      (* strncpy(server_ip, "your.vas.server.ip", sizeof(server_ip) - 1) *)
      (substring 0 15 "your.vas.server.ip")
      17777 0 0 0 sats' false
      (mk_tle_config 0 TLE_UPDATE_INTERVAL_HOURS true 0)
      (mk_recovery 0 0 STATE_IDLE false));;
  ret 0.

(** Chains the [if (err) return err;] steps of the configuration code. *)
Definition check (err : Z) (k : M Z) : M Z :=
  if err =? 0 then k else ret err.

Definition gps_pos_cmd (c : sateliot_config) : at_cmd :=
  let lat_param := 90000 + trunc_Q (device_lat c * 1000) in
  let lon_param := 180000 + trunc_Q (device_lon c * 1000) in
  let alt_param := trunc_Q (device_alt c * 1000) in
  AT_XSETGPSPOS lon_param lat_param alt_param.

Definition configure_nordic_for_sateliot (e : env) : M Z :=
  err <- at_printf e AT_CFUN_12;; check err (
  err <- at_printf e AT_XBANDLOCK_64;; check err (
  err <- at_printf e AT_CHSELECT;; check err (
  err <- at_printf e AT_XNTNFEAT;; check err (
  c <- get_config (fun c => c);;
  err <- (if gps_coordinates_valid c then at_printf e (gps_pos_cmd c) else ret 0);;
  check err (
  at_printf e AT_COPS_SATELIOT))))).

(** [modem_configure_for_sateliot_attachment]: the error of the GPS
    command is only logged. *)
Definition modem_configure_for_sateliot_attachment (e : env) : M Z :=
  c <- get_config (fun c => c);;
  (if gps_coordinates_valid c then _ <- at_printf e (gps_pos_cmd c);; skip else skip);;
  ret 0.

(* ================================================================= *)
(** ** Recovery and TLE bookkeeping *)

Definition attempt_error_recovery (e : env) (error_state : app_state) : M Z :=
  update_config (map_recovery (fun r => with_attempts (recovery_attempts r + 1) r));;
  now <- k_uptime_get;;
  update_config (map_recovery (with_recovery_time now));;
  n <- get_config (fun c => recovery_attempts (recovery c));;
  if MAX_ERROR_RECOVERY_ATTEMPTS <? n then
    update_config (map_recovery (with_attempts 0));;
    ret (- EFAULT)
  else if n =? 1 then
    lte_lc_offline;;
    k_sleep 5000;;
    ret 0
  else if n =? 2 then
    _ <- at_printf e AT_CFUN_15;;
    k_sleep 10000;;
    configure_nordic_for_sateliot e
  else
    modify (with_attachment_step ATTACH_STEP_1);;
    err <- initialize_sateliot_config;;
    if err =? 0 then configure_nordic_for_sateliot e else ret err.

Definition update_sateliot_tles : M Z :=
  current_time <- k_uptime_get;;
  tc <- get_config tle_config;;
  let hours_since_update := Z.quot (current_time - last_update_time tc) (60 * 60 * 1000) in
  if (hours_since_update <? update_interval_hours tc) && negb (update_needed tc) then
    ret 0
  else
    sats <- get_config satellites;;
    let any_invalid := existsb (fun t => negb (valid t)) (firstn 4 sats) in
    let failures := if any_invalid then consecutive_failures tc + 1 else 0 in
    let interval := if 3 <? failures then TLE_UPDATE_INTERVAL_HOURS * 2
                    else TLE_UPDATE_INTERVAL_HOURS in
    update_config (map_tle_config (fun _ =>
      mk_tle_config current_time interval false failures));;
    ret 0.

(* ================================================================= *)
(** ** Event handlers *)

Definition give_lte : M unit := k_sem_give lte_connected_sem with_lte_sem.
Definition give_gps : M unit := k_sem_give gps_fix_sem with_gps_sem.

Definition update_device_coordinates : M Z :=
  flag <- gets gps_fix_flag;;
  if flag then
    d <- gets last_gps_data;;
    update_config (with_coordinates (fix_lat d) (fix_lon d) (fix_alt d));;
    ret 0
  else ret (- ENODATA).

(** [gnss_event_handler]: a successful [nrf_modem_gnss_read] overwrites
    [last_gps_data] (its [FIX_VALID] bit included) whether or not the frame
    holds a fix (a failed read copies nothing); only a successful read of a
    frame with a valid fix updates the coordinates and gives
    [gps_fix_sem]. *)
Definition gnss_event_handler (evt : gnss_evt) : M unit :=
  match evt with
  | GNSS_EVT_PVT err fix_valid d =>
      (if err =? 0 then modify (with_gps_data fix_valid d) else skip);;
      flag <- gets gps_fix_flag;;
      if (err =? 0) && flag then
        _ <- update_device_coordinates;;
        give_gps
      else skip
  | GNSS_EVT_OTHER => skip
  end.

Definition lte_handler (evt : lte_lc_evt) : M unit :=
  match evt with
  | LTE_LC_EVT_NW_REG_STATUS LTE_LC_NW_REG_REGISTERED_HOME
  | LTE_LC_EVT_NW_REG_STATUS LTE_LC_NW_REG_REGISTERED_ROAMING =>
      modify (with_attachment_step ATTACH_COMPLETE);;
      update_config (map_recovery (with_attempts 0));;
      give_lte
  | _ => skip
  end.

Fixpoint run_all {A} (h : A -> M unit) (l : list A) : M unit :=
  match l with
  | [] => skip
  | x :: l' => h x;; run_all h l'
  end.

(* ================================================================= *)
(** ** Satellite pass prediction *)

Definition DAY_MS : Z := 24 * 60 * 60 * 1000.

(** [1.0 + (fabs(ground_lat) / 90.0) * 0.5] *)
Definition lat_factor (ground_lat : Q) : Q := 1 + (Qabs ground_lat / 90) * (1 # 2).

(** The body of [calculate_sateliot_satellite_pass] after the clock read:
    the pass it writes for uptime [current_time] and the three [rand()]
    results.  ([orbital_period_ms] is computed but never used.) *)
Definition predict_pass (current_time : Z) (ground_lat : Q) (r1 r2 r3 : Z) : satellite_pass :=
  let time_since_midnight := Z.rem current_time DAY_MS in
  let morning_pass_start := 10 * 60 * 60 * 1000 in
  let evening_pass_start := 21 * 60 * 60 * 1000 in
  let next_pass_start :=
    if time_since_midnight <? morning_pass_start then
      current_time + (morning_pass_start - time_since_midnight)
    else if time_since_midnight <? evening_pass_start then
      current_time + (evening_pass_start - time_since_midnight)
    else
      current_time + (DAY_MS - time_since_midnight) + morning_pass_start in
  let pass_duration0 := MIN_SATELLITE_PASS_DURATION_MS +
      Z.rem r1 (MAX_SATELLITE_PASS_DURATION_MS - MIN_SATELLITE_PASS_DURATION_MS) in
  let pass_duration := trunc_Q (inject_Z pass_duration0 * lat_factor ground_lat) in
  mk_pass next_pass_start (next_pass_start + pass_duration)
    (30 + Z.rem r2 56) (Z.rem r3 4) true.

(** The [pass] pointer is [None] for NULL, [Some p] for a pointer to a
    [struct satellite_pass] holding [p]; the result is the return code and
    the pointed-to value afterwards. *)
Definition calculate_sateliot_satellite_pass (e : env) (pass : option satellite_pass)
    (ground_lat ground_lon : Q) : M (Z * option satellite_pass) :=
  match pass with
  | None => ret (- EINVAL, None)
  | Some p =>
      gps_ok <- get_config gps_coordinates_valid;;
      if negb gps_ok then ret (- ENODATA, Some p)
      else
        current_time <- k_uptime_get;;
        let '(r1, r2, r3) := rand_values e in
        ret (0, Some (predict_pass current_time ground_lat r1 r2 r3))
  end.

(* ================================================================= *)
(** ** Telemetry *)

Definition validate_buffer_safety (buffer_size required_size : Z) : bool :=
  negb (buffer_size <? required_size + TELEMETRY_SAFETY_MARGIN).

(** What [snprintf(buffer, size, ...)] leaves in a buffer of [size] bytes
    ([size > 0]) when it renders [text]: at most [size - 1] characters and
    a terminating NUL; the rest of the buffer is untouched. *)
Definition snprintf_write (buf : list ascii) (size : Z) (text : string) : list ascii :=
  let n := Nat.min (String.length text) (Z.to_nat (size - 1)) in
  firstn n (list_ascii_of_string text) ++ [zero] ++ skipn (S n) buf.

(** The [buffer] pointer is [None] for NULL, [Some b] for a buffer holding
    [b]; the result is the return code and the buffer afterwards.
    ([snprintf] cannot fail on this format, so its [ret < 0] branch is not
    modelled.) *)
Definition format_telemetry_data (e : env) (buffer : option (list ascii))
    (buffer_size : Z) : M (Z * option (list ascii)) :=
  match buffer with
  | None => ret (- EINVAL, None)
  | Some buf =>
      if buffer_size =? 0 then ret (- EINVAL, Some buf)
      else if negb (validate_buffer_safety buffer_size MIN_BUFFER_SIZE_TELEMETRY) then
        ret (- ENOMEM, Some buf)
      else
        let estimated_size := 120 in
        if buffer_size <? estimated_size + TELEMETRY_SAFETY_MARGIN then
          ret (- ENOMEM, Some buf)
        else
          ts <- k_uptime_get;;
          c <- get_config (fun c => c);;
          flag <- gets gps_fix_flag;;
          d <- gets last_gps_data;;
          let ok := gps_coordinates_valid c in
          let text := render_telemetry e ts
                        (if ok then device_lat c else 0%Q)
                        (if ok then device_lon c else 0%Q)
                        (if ok then device_alt c else 0%Q)
                        (if flag then fix_sv_count d else 0) in
          let r := Z.of_nat (String.length text) in
          let buf' := snprintf_write buf buffer_size text in
          if buffer_size <=? r then ret (- ENOMEM, Some buf')
          else if r <? 50 then ret (- EFAULT, Some buf')
          else ret (0, Some buf')
  end.

(** The retry loop of [robust_data_send]; every pass increments
    [retry_count] or returns, so three passes of fuel cover it. *)
Fixpoint send_loop (e : env) (fuel : nat) (retry_count : Z) : M Z :=
  match fuel with
  | O => ret (- EIO)
  | S fuel' =>
      if retry_count <? 3 then
        match send_outcome_at e retry_count with
        | SOCKET_FAILED => k_sleep 10000;; send_loop e fuel' (retry_count + 1)
        | SENDTO_FAILED =>
            emit EvSendto;; k_sleep 15000;; send_loop e fuel' (retry_count + 1)
        | SENDTO_OK => emit EvSendto;; ret 0
        end
      else ret (- EIO)
  end.

Definition robust_data_send (e : env) : M Z := send_loop e 3 0.

(* ================================================================= *)
(** ** The main loop *)

Definition lte_registration (e : env) : option (Z * M unit) :=
  match registration_signal e with
  | Some t => Some (t, lte_handler (LTE_LC_EVT_NW_REG_STATUS LTE_LC_NW_REG_REGISTERED_HOME))
  | None => None
  end.

Definition gnss_arrival (e : env) : option (Z * M unit) :=
  match gnss_signal e with
  | Some (t, f) => Some (t, gnss_event_handler (GNSS_EVT_PVT 0 true f))
  | None => None
  end.

Definition take_lte (e : env) (timeout : Z) : M Z :=
  k_sem_take lte_connected_sem with_lte_sem timeout (lte_registration e).

Definition case_idle (e : env) : M unit :=
  tc <- get_config tle_config;;
  stale <- (if update_needed tc then ret true
            else now <- k_uptime_get;;
                 ret (update_interval_hours tc * 60 * 60 * 1000 <? now - last_update_time tc));;
  if stale then set_state STATE_TLE_UPDATE
  else
    (match CURRENT_INTEGRATION_PHASE with
     | PHASE_NTN_TESTING =>
         c <- get_config (fun c => c);;
         if gps_coordinates_valid c then
           p <- gets next_pass;;
           res <- calculate_sateliot_satellite_pass e (Some p) (device_lat c) (device_lon c);;
           (match snd res with Some p' => modify (with_next_pass p') | None => skip end);;
           p' <- gets next_pass;;
           now <- k_uptime_get;;
           let sleep_ms := start_time p' - now in
           if 0 <? sleep_ms then k_sleep (Z.min sleep_ms (30 * 60 * 1000)) else skip
         else k_sleep 30000
     | PHASE_TN_TESTING => k_sleep 60000
     end);;
    set_state STATE_GETTING_GPS_FIX.

Definition case_tle_update : M unit :=
  err <- update_sateliot_tles;;
  (if negb (err =? 0) then
     update_config (map_tle_config (fun t => with_failures (consecutive_failures t + 1) t))
   else skip);;
  set_state STATE_GETTING_GPS_FIX.

Definition case_getting_gps_fix (e : env) : M unit :=
  modify (with_gps_sem 0);;                       (* k_sem_reset *)
  err <- k_sem_take gps_fix_sem with_gps_sem 180000 (gnss_arrival e);;
  if negb (err =? 0) then
    ok <- get_config gps_coordinates_valid;;
    if ok then set_state STATE_ATTEMPTING_CONNECTION_STEP1 else set_state STATE_IDLE
  else set_state STATE_ATTEMPTING_CONNECTION_STEP1.

Definition case_step1 (e : env) : M unit :=
  modify (with_attachment_step ATTACH_STEP_1);;
  configured <- (match CURRENT_INTEGRATION_PHASE with
                 | PHASE_NTN_TESTING =>
                     err <- configure_nordic_for_sateliot e;;
                     if negb (err =? 0) then set_state STATE_ERROR;; ret false
                     else _ <- modem_configure_for_sateliot_attachment e;; ret true
                 | PHASE_TN_TESTING => ret true
                 end);;
  if configured then
    lte_lc_connect_async;;
    err <- take_lte e (5 * 60 * 1000);;
    if negb (err =? 0) then
      modify (with_attachment_step ATTACH_STEP_2);;
      set_state STATE_ATTEMPTING_CONNECTION_STEP2
    else set_state STATE_SENDING_DATA
  else skip.

Definition case_step2 (e : env) : M unit :=
  modify (with_attachment_step ATTACH_STEP_2);;
  k_sleep 30000;;
  lte_lc_connect_async;;
  err <- take_lte e (15 * 60 * 1000);;
  if negb (err =? 0) then
    lte_lc_offline;;
    modify (with_attachment_step ATTACH_STEP_1);;
    set_state STATE_ATTEMPTING_CONNECTION_STEP1
  else set_state STATE_SENDING_DATA.

Definition case_sending_data (e : env) : M unit :=
  buf <- gets payload_buffer;;
  res <- format_telemetry_data e (Some buf) PAYLOAD_BUFFER_SIZE;;
  (match snd res with Some b => modify (with_payload b) | None => skip end);;
  (if fst res =? 0 then _ <- robust_data_send e;; skip else skip);;
  lte_lc_offline;;
  set_state STATE_IDLE.

Definition case_recovery (e : env) : M unit :=
  lgs <- get_config (fun c => last_good_state (recovery c));;
  err <- attempt_error_recovery e lgs;;
  if err =? 0 then
    lgs' <- get_config (fun c => last_good_state (recovery c));;
    set_state lgs'
  else if err =? - EFAULT then set_state STATE_IDLE
  else k_sleep (2 * 60 * 1000);; set_state STATE_IDLE.

Definition state_step (e : env) (s : app_state) : M unit :=
  match s with
  | STATE_IDLE => case_idle e
  | STATE_TLE_UPDATE => case_tle_update
  | STATE_GETTING_GPS_FIX => case_getting_gps_fix e
  | STATE_ATTEMPTING_CONNECTION_STEP1 => case_step1 e
  | STATE_ATTEMPTING_CONNECTION_STEP2 => case_step2 e
  | STATE_SENDING_DATA => case_sending_data e
  | STATE_RECOVERY => case_recovery e
  | STATE_ERROR => set_state STATE_RECOVERY
  | STATE_INIT => set_state STATE_IDLE            (* default: *)
  end.

(** One pass of [while (1)]; the handlers of the events that arrived since
    the previous pass run first. *)
Definition loop_iteration (e : env) : M unit :=
  run_all lte_handler (background_lte e);;
  run_all gnss_event_handler (background_gnss e);;
  wdt_feed;;
  s <- gets current_state;;
  state_step e s;;
  k_sleep 500.

(* ================================================================= *)
(** ** Boot *)

Definition zero_tle : sateliot_tle := mk_tle "" "" "" 0 false.

(** The zero-initialised statics before [main] runs. *)
Definition initial_world : world :=
  mk_world STATE_INIT ATTACH_STEP_1
    (mk_config "" 0 0 0 0 [zero_tle; zero_tle; zero_tle; zero_tle] false
       (mk_tle_config 0 0 false 0) (mk_recovery 0 0 STATE_INIT false))
    0 0 0 false (mk_fix 0 0 0 0)
    (repeat zero (Z.to_nat PAYLOAD_BUFFER_SIZE))
    (mk_pass 0 0 0 0 false) [].

(** The prologue of [main] up to the loop, given the results of
    [setup_watchdog], [lte_lc_init_and_connect_async] and
    [gnss_init_and_start]; [false] when [main] parks in
    [k_sleep(K_FOREVER)] because the watchdog could not be set up. *)
Definition main_prologue (wdt_err lte_err gnss_err : Z) : M bool :=
  err <- initialize_sateliot_config;;
  (if negb (err =? 0) then set_state STATE_ERROR else skip);;
  if negb (wdt_err =? 0) then emit EvSleepForever;; ret false
  else
    (if negb (lte_err =? 0) then set_state STATE_ERROR else skip);;
    (if negb (gnss_err =? 0) then set_state STATE_ERROR else skip);;
    set_state STATE_IDLE;;
    ret true.

(** The worlds the main loop can be in at the top of a pass. *)
Inductive reachable : world -> Prop :=
| reach_boot : forall wdt_err lte_err gnss_err w,
    main_prologue wdt_err lte_err gnss_err initial_world = (true, w) -> reachable w
| reach_loop : forall e w, reachable w -> reachable (snd (loop_iteration e w)).

(* ================================================================= *)
(** * Properties *)

(** ** Truncation of non-negative rationals *)

Lemma trunc_Q_lower (a : Z) (q : Q) :
  0 <= a -> (inject_Z a <= q)%Q -> a <= trunc_Q q.
Proof.
  destruct q as [n d]; unfold trunc_Q, Qle, inject_Z; cbn.
  intros Ha H.
  assert (0 <= n) by nia.
  rewrite Z.quot_div_nonneg by lia.
  apply Z.div_le_lower_bound; lia.
Qed.

Lemma trunc_Q_upper (b : Z) (q : Q) :
  (0 <= q)%Q -> (q < inject_Z (b + 1))%Q -> trunc_Q q <= b.
Proof.
  destruct q as [n d]; unfold trunc_Q, Qle, Qlt, inject_Z; cbn.
  intros H0 H.
  rewrite Z.quot_div_nonneg by lia.
  assert (n / Z.pos d < b + 1); [|lia].
  apply Z.div_lt_upper_bound; lia.
Qed.

Lemma lat_factor_range (ground_lat : Q) :
  (Qabs ground_lat <= 90)%Q -> (1 <= lat_factor ground_lat <= 3 # 2)%Q.
Proof.
  intros H. pose proof (Qabs_nonneg ground_lat).
  unfold lat_factor, Qdiv. change (/ 90)%Q with (1 # 90)%Q. split; lra.
Qed.

(** The broadened duration: [trunc((30000 + r1 mod 450000) * factor)]. *)
Lemma broadened_duration_range (d : Z) (f : Q) :
  MIN_SATELLITE_PASS_DURATION_MS <= d < MAX_SATELLITE_PASS_DURATION_MS ->
  (1 <= f <= 3 # 2)%Q ->
  MIN_SATELLITE_PASS_DURATION_MS <= trunc_Q (inject_Z d * f) /\
  trunc_Q (inject_Z d * f) < MAX_SATELLITE_PASS_DURATION_MS * 3 / 2.
Proof.
  unfold MIN_SATELLITE_PASS_DURATION_MS, MAX_SATELLITE_PASS_DURATION_MS; cbn.
  intros Hd [Hf1 Hf2].
  assert (Hd0 : (inject_Z 30000 <= inject_Z d)%Q) by (rewrite <- Zle_Qle; lia).
  assert (Hd1 : (inject_Z d <= inject_Z 479999)%Q) by (rewrite <- Zle_Qle; lia).
  change (inject_Z 30000) with (30000 # 1) in Hd0.
  change (inject_Z 479999) with (479999 # 1) in Hd1.
  assert (Hlo : (inject_Z d <= inject_Z d * f)%Q).
  { setoid_replace (inject_Z d) with (inject_Z d * 1)%Q at 1 by ring.
    apply Qmult_le_compat_nonneg; split; lra. }
  assert (Hhi : (inject_Z d * f <= inject_Z d * (3 # 2))%Q).
  { apply Qmult_le_compat_nonneg; split; lra. }
  split.
  - apply trunc_Q_lower; [lia|]. change (inject_Z 30000) with (30000 # 1). lra.
  - assert (trunc_Q (inject_Z d * f) <= 719998); [|lia].
    apply trunc_Q_upper.
    + lra.
    + change (inject_Z (719998 + 1)) with (719999 # 1). lra.
Qed.

(** ** Helper facts about [set_state] *)

Lemma set_state_current (s : app_state) (w : world) :
  current_state (snd (set_state s w)) = s.
Proof.
  unfold set_state, bind, gets, skip, ret, emit, modify, update_config, app_state_eqb.
  destruct (app_state_eq_dec s (current_state w)) as [E|E]; cbn.
  - symmetry; exact E.
  - destruct (is_error_or_recovery (current_state w)); reflexivity.
Qed.

Lemma set_state_tle_config (s : app_state) (w : world) :
  tle_config (config (snd (set_state s w))) = tle_config (config w).
Proof.
  unfold set_state, bind, gets, skip, ret, emit, modify, update_config, app_state_eqb.
  destruct (app_state_eq_dec s (current_state w)); cbn; [reflexivity|].
  destruct (is_error_or_recovery (current_state w)); reflexivity.
Qed.

(** A collaborator environment in which every AT command succeeds, no
    signal arrives, every send succeeds and [rand()] yields [r]. *)
Definition sample_env (r : Z * Z * Z) : env :=
  mk_env (fun _ => 0) None None [] [] r (fun _ => SENDTO_OK)
    (fun _ _ _ _ _ => EmptyString).

(** ** C2: duration of a predicted pass *)

Lemma rem_duration_range (r1 : Z) :
  0 <= r1 ->
  MIN_SATELLITE_PASS_DURATION_MS <=
    MIN_SATELLITE_PASS_DURATION_MS +
      Z.rem r1 (MAX_SATELLITE_PASS_DURATION_MS - MIN_SATELLITE_PASS_DURATION_MS)
  < MAX_SATELLITE_PASS_DURATION_MS.
Proof.
  intros H.
  pose proof (Z.rem_bound_pos r1 (MAX_SATELLITE_PASS_DURATION_MS - MIN_SATELLITE_PASS_DURATION_MS) H).
  unfold MIN_SATELLITE_PASS_DURATION_MS, MAX_SATELLITE_PASS_DURATION_MS in *; lia.
Qed.

(** C2 (code bug): the duration drawn in [MIN .. MAX) is multiplied by
    the latitude factor with no clamp afterwards, although
    [MAX_SATELLITE_PASS_DURATION_MS] is documented as the 8-minute maximum.
    With the largest draw ([rand() = 449999], within [0 .. RAND_MAX],
    [RAND_MAX = 2^31 - 1] in newlib and picolibc) the predictor succeeds
    with a pass longer than [MAX_SATELLITE_PASS_DURATION_MS] at every
    latitude of at least 0.001 degrees in absolute value, whatever the
    clock and the other draws. *)
Theorem predicted_pass_overruns_max_duration (e : env) (p0 : satellite_pass)
    (ground_lat ground_lon : Q) (w : world) :
  gps_coordinates_valid (config w) = true ->
  fst (fst (rand_values e)) = 449999 ->
  (1 # 1000 <= Qabs ground_lat)%Q ->
  exists p,
    fst (calculate_sateliot_satellite_pass e (Some p0) ground_lat ground_lon w) = (0, Some p) /\
    MAX_SATELLITE_PASS_DURATION_MS < end_time p - start_time p.
Proof.
  intros Hv Hr Hlat.
  unfold calculate_sateliot_satellite_pass, bind, get_config, gets, k_uptime_get, ret.
  rewrite Hv. destruct (rand_values e) as [[r1 r2] r3] eqn:Er; cbn in Hr; subst r1. cbn.
  eexists; split; [reflexivity|].
  unfold predict_pass; cbv zeta; cbn [start_time end_time].
  match goal with |- context [trunc_Q ?q] => set (d := trunc_Q q) end.
  assert (Hd : 480001 <= d).
  { apply trunc_Q_lower; [lia|]. unfold lat_factor.
    unfold MIN_SATELLITE_PASS_DURATION_MS, MAX_SATELLITE_PASS_DURATION_MS.
    change (Z.rem 449999 (8 * 60 * 1000 - 30 * 1000)) with 449999.
    change (inject_Z 480001) with (480001 # 1).
    change (inject_Z (30 * 1000 + 449999)) with (479999 # 1).
    unfold Qdiv. change (Qinv 90) with (1 # 90). lra. }
  unfold MAX_SATELLITE_PASS_DURATION_MS; lia.
Qed.

Lemma predicted_pass_overruns_max_duration_witness :
  let w := map_config (with_coordinates 90 0 0) initial_world in
  fst (calculate_sateliot_satellite_pass (sample_env (449999, 0, 0)) (Some (next_pass w)) 90 0 w)
    = (0, Some (mk_pass 36000000 36719998 30 0 true)) /\
  exists p,
    fst (calculate_sateliot_satellite_pass (sample_env (449999, 0, 0)) (Some (next_pass w)) 90 0 w)
      = (0, Some p) /\
    MAX_SATELLITE_PASS_DURATION_MS < end_time p - start_time p.
Proof.
  cbv zeta. split; [vm_compute; reflexivity|].
  apply (predicted_pass_overruns_max_duration (sample_env (449999, 0, 0)) _ 90 0
           (map_config (with_coordinates 90 0 0) initial_world));
    [reflexivity|reflexivity|vm_compute; discriminate].
Defined.

(** X23: for [|lat| <= 90] and a non-negative first [rand()], every pass
    the predictor returns with result 0 has [end_time > start_time] and a
    duration of at least [MIN_SATELLITE_PASS_DURATION_MS] and below
    [1.5 * MAX_SATELLITE_PASS_DURATION_MS]: the latitude factor
    (1.0 .. 1.5) scales the [MIN .. MAX) draw. *)
Theorem predicted_pass_duration_bounds (e : env) (p0 : satellite_pass)
    (ground_lat ground_lon : Q) (w : world) (p : satellite_pass) :
  0 <= fst (fst (rand_values e)) ->
  (Qabs ground_lat <= 90)%Q ->
  fst (calculate_sateliot_satellite_pass e (Some p0) ground_lat ground_lon w) = (0, Some p) ->
  start_time p < end_time p /\
  MIN_SATELLITE_PASS_DURATION_MS <= end_time p - start_time p /\
  end_time p - start_time p < MAX_SATELLITE_PASS_DURATION_MS * 3 / 2.
Proof.
  intros Hr Hlat H.
  unfold calculate_sateliot_satellite_pass, bind, get_config, gets, k_uptime_get, ret in H.
  destruct (rand_values e) as [[r1 r2] r3] eqn:Er; cbn in Hr.
  destruct (gps_coordinates_valid (config w)); cbn in H; [|discriminate].
  injection H as <-.
  unfold predict_pass; cbn [start_time end_time].
  match goal with |- context [trunc_Q ?q] => set (d := trunc_Q q) end.
  assert (Hd : MIN_SATELLITE_PASS_DURATION_MS <= d < MAX_SATELLITE_PASS_DURATION_MS * 3 / 2).
  { apply broadened_duration_range;
      [apply rem_duration_range; exact Hr | apply lat_factor_range; exact Hlat]. }
  unfold MIN_SATELLITE_PASS_DURATION_MS in *; lia.
Qed.

Lemma predicted_pass_duration_bounds_witness :
  0 <= fst (fst (rand_values (sample_env (449999, 0, 0)))) /\
  (Qabs 90 <= 90)%Q /\
  36000000 < 36719998 /\
  MIN_SATELLITE_PASS_DURATION_MS <= 36719998 - 36000000 /\
  36719998 - 36000000 < MAX_SATELLITE_PASS_DURATION_MS * 3 / 2.
Proof.
  pose (w := map_config (with_coordinates 90 0 0) initial_world).
  assert (H0 : 0 <= fst (fst (rand_values (sample_env (449999, 0, 0))))) by (vm_compute; discriminate).
  assert (H1 : (Qabs 90 <= 90)%Q) by (vm_compute; discriminate).
  assert (H2 : fst (calculate_sateliot_satellite_pass (sample_env (449999, 0, 0)) (Some (next_pass w)) 90 0 w)
               = (0, Some (mk_pass 36000000 36719998 30 0 true))) by (vm_compute; reflexivity).
  pose proof (predicted_pass_duration_bounds _ _ 90 0 w _ H0 H1 H2) as H; cbn in H.
  tauto.
Defined.

(** ** Ephemeris (TLE) bookkeeping *)

(** The due-check of [update_sateliot_tles] passes: the flag is set or at
    least [update_interval_hours] whole hours have elapsed. *)
Definition tle_refresh_due (w : world) : Prop :=
  update_needed (tle_config (config w)) = true \/
  update_interval_hours (tle_config (config w)) <=
    Z.quot (uptime w - last_update_time (tle_config (config w))) (60 * 60 * 1000).

Lemma update_sateliot_tles_eq (w : world) :
  let tc := tle_config (config w) in
  let sats := satellites (config w) in
  let hours := Z.quot (uptime w - last_update_time tc) (60 * 60 * 1000) in
  update_sateliot_tles w =
    if (hours <? update_interval_hours tc) && negb (update_needed tc) then (0, push EvClock w)
    else
      let failures := if existsb (fun t => negb (valid t)) (firstn 4 sats)
                      then consecutive_failures tc + 1 else 0 in
      let interval := if 3 <? failures then TLE_UPDATE_INTERVAL_HOURS * 2
                      else TLE_UPDATE_INTERVAL_HOURS in
      (0, map_config (map_tle_config (fun _ =>
             mk_tle_config (uptime w) interval false failures)) (push EvClock w)).
Proof.
  cbv zeta.
  unfold update_sateliot_tles, bind, k_uptime_get, get_config, gets, ret,
    update_config, modify; cbn.
  destruct (_ && _); reflexivity.
Qed.

Lemma refresh_due_check (w : world) :
  tle_refresh_due w ->
  (Z.quot (uptime w - last_update_time (tle_config (config w))) (60 * 60 * 1000)
     <? update_interval_hours (tle_config (config w)))
  && negb (update_needed (tle_config (config w))) = false.
Proof.
  intros [H|H].
  - rewrite H, andb_false_r; reflexivity.
  - rewrite (proj2 (Z.ltb_ge _ _) H); reflexivity.
Qed.

Lemma existsb_invalid_false (l : list sateliot_tle) :
  Forall (fun t => valid t = true) l -> existsb (fun t => negb (valid t)) l = false.
Proof.
  induction 1 as [|t l Ht _ IH]; cbn; [reflexivity|].
  rewrite Ht, IH; reflexivity.
Qed.

Lemma existsb_invalid_true (l : list sateliot_tle) :
  Exists (fun t => valid t = false) l -> existsb (fun t => negb (valid t)) l = true.
Proof.
  induction 1 as [t l Ht|t l _ IH]; cbn.
  - rewrite Ht; reflexivity.
  - rewrite IH, orb_true_r; reflexivity.
Qed.

(** C4 (counterexample): right after [initialize_sateliot_config] three of
    the four TLE slots are invalid; the refresh counts that as a failure
    ([consecutive_failures] goes from 0 to 1) and still clears
    [update_needed]. *)
Lemma tle_flag_cleared_on_failed_refresh :
  let w := snd (main_prologue 0 0 0 initial_world) in
  let tc' := tle_config (config (snd (update_sateliot_tles w))) in
  update_needed (tle_config (config w)) = true /\
  consecutive_failures (tle_config (config w)) = 0 /\
  consecutive_failures tc' = 1 /\
  update_needed tc' = false.
Proof. vm_compute; repeat split. Qed.

(** C4 (amended): with interval 24 h the idle check taken 25 h after the
    last update reports the ephemeris stale and the refresh is due; a
    refresh that runs stamps [last_update_time] and clears [update_needed]
    whether the slots validate cleanly or not; more than 3 consecutive
    failures give twice the nominal interval, otherwise the interval is
    nominal; a clean refresh resets the failure count. *)
Theorem tle_freshness_bookkeeping (e : env) (w : world) :
  (update_needed (tle_config (config w)) = false ->
   update_interval_hours (tle_config (config w)) = 24 ->
   uptime w = last_update_time (tle_config (config w)) + 25 * 60 * 60 * 1000 ->
   current_state (snd (case_idle e w)) = STATE_TLE_UPDATE /\ tle_refresh_due w) /\
  (tle_refresh_due w ->
   let tc := tle_config (config w) in
   let tc' := tle_config (config (snd (update_sateliot_tles w))) in
   last_update_time tc' = uptime w /\
   update_needed tc' = false /\
   (Forall (fun t => valid t = true) (firstn 4 (satellites (config w))) ->
      consecutive_failures tc' = 0 /\ update_interval_hours tc' = TLE_UPDATE_INTERVAL_HOURS) /\
   (Exists (fun t => valid t = false) (firstn 4 (satellites (config w))) ->
      consecutive_failures tc' = consecutive_failures tc + 1) /\
   (3 < consecutive_failures tc' ->
      update_interval_hours tc' = TLE_UPDATE_INTERVAL_HOURS * 2) /\
   (consecutive_failures tc' <= 3 ->
      update_interval_hours tc' = TLE_UPDATE_INTERVAL_HOURS)).
Proof.
  split.
  - intros Hn Hi Hu. split.
    + unfold case_idle, bind, get_config, gets, k_uptime_get, ret.
      cbn -[set_state].
      rewrite Hn, Hi, Hu.
      rewrite (proj2 (Z.ltb_lt _ _)) by lia.
      apply set_state_current.
    + right. rewrite Hi, Hu.
      replace (last_update_time (tle_config (config w)) + 25 * 60 * 60 * 1000 -
               last_update_time (tle_config (config w))) with (25 * (60 * 60 * 1000)) by lia.
      rewrite Z.quot_mul by lia. lia.
  - intros Hdue tc tc'. subst tc tc'.
    rewrite update_sateliot_tles_eq. cbv zeta.
    rewrite (refresh_due_check w Hdue). cbn.
    set (b := existsb _ _).
    split; [reflexivity|]. split; [reflexivity|].
    split; [|split; [|split]].
    + intros Hall. subst b. rewrite existsb_invalid_false by exact Hall. split; reflexivity.
    + intros Hex. subst b. rewrite existsb_invalid_true by exact Hex. reflexivity.
    + intros H. destruct (3 <? _) eqn:E; [reflexivity|].
      apply Z.ltb_ge in E; lia.
    + intros H. destruct (3 <? _) eqn:E; [|reflexivity].
      apply Z.ltb_lt in E; lia.
Qed.

(** Interval 24 h, last update at 1 s of uptime, queried 25 h later. *)
Definition stale_tle_world : world :=
  map_config (map_tle_config (fun _ => mk_tle_config 1000 24 false 0))
    (with_uptime (1000 + 25 * 60 * 60 * 1000) initial_world).

Lemma tle_freshness_bookkeeping_witness :
  current_state (snd (case_idle (sample_env (0, 0, 0)) stale_tle_world)) = STATE_TLE_UPDATE /\
  tle_refresh_due stale_tle_world.
Proof.
  apply (proj1 (tle_freshness_bookkeeping (sample_env (0, 0, 0)) stale_tle_world));
    vm_compute; reflexivity.
Defined.

(** C10: [update_sateliot_tles] returns 0 on every call, so the failure
    branch of the [STATE_TLE_UPDATE] case never runs and the case leaves
    the bookkeeping exactly as the refresh left it; a due refresh that sees
    an invalid slot still stamps [last_update_time] and clears
    [update_needed]. *)
Theorem tle_refresh_infallible (w : world) :
  fst (update_sateliot_tles w) = 0 /\
  tle_config (config (snd (case_tle_update w))) =
    tle_config (config (snd (update_sateliot_tles w))) /\
  (tle_refresh_due w ->
   Exists (fun t => valid t = false) (firstn 4 (satellites (config w))) ->
   last_update_time (tle_config (config (snd (update_sateliot_tles w)))) = uptime w /\
   update_needed (tle_config (config (snd (update_sateliot_tles w)))) = false).
Proof.
  assert (H0 : fst (update_sateliot_tles w) = 0).
  { rewrite update_sateliot_tles_eq; cbv zeta.
    destruct (_ && _); reflexivity. }
  split; [exact H0|]. split.
  - unfold case_tle_update, bind at 1.
    destruct (update_sateliot_tles w) as [err w1]; cbn in H0; subst err; cbn.
    apply set_state_tle_config.
  - intros Hdue _.
    rewrite update_sateliot_tles_eq; cbv zeta.
    rewrite (refresh_due_check w Hdue). split; reflexivity.
Qed.

(** ** Telemetry encoder *)

(** C6 (counterexample): capacity 0 is below the 160-byte minimum, yet it
    is refused by the parameter check with [-EINVAL], not [-ENOMEM]. *)
Lemma telemetry_zero_capacity_is_einval :
  fst (fst (format_telemetry_data (sample_env (0, 0, 0))
              (Some (payload_buffer initial_world)) 0 initial_world)) = - EINVAL /\
  - EINVAL <> - ENOMEM.
Proof. split; [reflexivity | discriminate]. Qed.

(** C6 (amended): every capacity [0 < c < 128 + 32] is refused with
    [-ENOMEM] (BufferTooSmall) before anything is rendered: the buffer and
    the whole world (no clock read) are left unchanged; capacity 159 is
    such a case; capacity 0 is refused with [-EINVAL], also unchanged. *)
Theorem telemetry_rejects_small_buffers (e : env) (buf : list ascii) (c : Z) (w : world) :
  0 < c < MIN_BUFFER_SIZE_TELEMETRY + TELEMETRY_SAFETY_MARGIN ->
  format_telemetry_data e (Some buf) c w = ((- ENOMEM, Some buf), w) /\
  format_telemetry_data e (Some buf)
    (MIN_BUFFER_SIZE_TELEMETRY + TELEMETRY_SAFETY_MARGIN - 1) w = ((- ENOMEM, Some buf), w) /\
  format_telemetry_data e (Some buf) 0 w = ((- EINVAL, Some buf), w).
Proof.
  intros Hc.
  assert (Hsmall : forall c', 0 < c' < MIN_BUFFER_SIZE_TELEMETRY + TELEMETRY_SAFETY_MARGIN ->
            format_telemetry_data e (Some buf) c' w = ((- ENOMEM, Some buf), w)).
  { intros c' Hc'. unfold format_telemetry_data, validate_buffer_safety.
    rewrite (proj2 (Z.eqb_neq c' 0)) by lia.
    rewrite (proj2 (Z.ltb_lt _ _)) by lia. reflexivity. }
  split; [apply Hsmall; exact Hc|]. split.
  - apply Hsmall. unfold MIN_BUFFER_SIZE_TELEMETRY, TELEMETRY_SAFETY_MARGIN; lia.
  - reflexivity.
Qed.

Lemma telemetry_rejects_small_buffers_witness :
  format_telemetry_data (sample_env (0, 0, 0)) (Some (payload_buffer initial_world)) 159
    initial_world = ((- ENOMEM, Some (payload_buffer initial_world)), initial_world).
Proof.
  apply (telemetry_rejects_small_buffers _ _ 159 _).
  unfold MIN_BUFFER_SIZE_TELEMETRY, TELEMETRY_SAFETY_MARGIN; lia.
Defined.

(** ** Visibility predictor without a fix *)

(** C8: with [gps_coordinates_valid = false] the predictor returns
    [-ENODATA] before [k_uptime_get]: the pass it points to and the whole
    world (no clock event) are unchanged. *)
Theorem prediction_without_fix_is_nodata (e : env) (p : satellite_pass)
    (ground_lat ground_lon : Q) (w : world) :
  gps_coordinates_valid (config w) = false ->
  calculate_sateliot_satellite_pass e (Some p) ground_lat ground_lon w
    = ((- ENODATA, Some p), w).
Proof.
  intros H.
  unfold calculate_sateliot_satellite_pass, bind, get_config, gets.
  rewrite H. reflexivity.
Qed.

Lemma prediction_without_fix_is_nodata_witness :
  calculate_sateliot_satellite_pass (sample_env (1, 2, 3)) (Some (next_pass initial_world))
    45 2 initial_world = ((- ENODATA, Some (next_pass initial_world)), initial_world).
Proof. apply prediction_without_fix_is_nodata. reflexivity. Defined.

(** ** Attach and fix-acquisition transitions *)

Definition with_trace (tr : list event) (w : world) :=
  mk_world (current_state w) (current_attachment_step w) (config w)
    (uptime w) (lte_connected_sem w) (gps_fix_sem w) (gps_fix_flag w)
    (last_gps_data w) (payload_buffer w) (next_pass w) tr.

(** Whether a registration arrives strictly within [timeout] ms
    (the test [k_sem_take] applies to [registration_signal]). *)
Definition registration_within (e : env) (timeout : Z) : bool :=
  match registration_signal e with
  | Some t => (0 <=? t) && (t <? timeout)
  | None => false
  end.

Definition fix_within (e : env) (timeout : Z) : bool :=
  match gnss_signal e with
  | Some (t, _) => (0 <=? t) && (t <? timeout)
  | None => false
  end.

Ltac split_ifs :=
  repeat (match goal with
          | |- context [if ?c then _ else _] => destruct c
          end; cbn).

(** [configure_nordic_for_sateliot] only sends AT commands: it changes
    nothing but the trace. *)
Lemma configure_frame (e : env) (w : world) :
  snd (configure_nordic_for_sateliot e w) =
    with_trace (trace (snd (configure_nordic_for_sateliot e w))) w.
Proof.
  destruct w; unfold configure_nordic_for_sateliot, check, at_printf, bind, emit,
    modify, get_config, gets, ret; cbn.
  split_ifs; reflexivity.
Qed.

Lemma configure_result (e : env) (w1 w2 : world) :
  config w1 = config w2 ->
  fst (configure_nordic_for_sateliot e w1) = fst (configure_nordic_for_sateliot e w2).
Proof.
  destruct w1, w2; cbn; intros ->.
  unfold configure_nordic_for_sateliot, check, at_printf, bind, emit,
    modify, get_config, gets, ret, push; simpl.
  split_ifs; reflexivity.
Qed.

(** ** Weakest preconditions over [M] *)

Definition wp {A} (m : M A) (Q : A -> world -> Prop) (w : world) : Prop :=
  Q (fst (m w)) (snd (m w)).
Arguments wp : simpl never.

Lemma wp_bind_i {A B} (m : M A) (k : A -> M B) Q w :
  wp m (fun a w1 => wp (k a) Q w1) w -> wp (bind m k) Q w.
Proof. unfold wp, bind. destruct (m w); exact (fun H => H). Qed.

Lemma wp_ret_i {A} (a : A) Q w : Q a w -> wp (ret a) Q w.
Proof. exact (fun H => H). Qed.

Lemma wp_gets_i {A} (f : world -> A) Q w : Q (f w) w -> wp (gets f) Q w.
Proof. exact (fun H => H). Qed.

Lemma wp_modify_i f Q w : Q tt (f w) -> wp (modify f) Q w.
Proof. exact (fun H => H). Qed.

Lemma wp_clock_i Q w : Q (uptime w) (push EvClock w) -> wp k_uptime_get Q w.
Proof. exact (fun H => H). Qed.

Lemma wp_configure_i e w0 Q w :
  config w0 = config w ->
  (forall tr, Q (fst (configure_nordic_for_sateliot e w0)) (with_trace tr w)) ->
  wp (configure_nordic_for_sateliot e) Q w.
Proof.
  intros Hc H. unfold wp.
  rewrite <- (configure_result e w0 w Hc), (configure_frame e w). apply H.
Qed.

Lemma wp_elim {A} (m : M A) Q w : wp m Q w -> Q (fst (m w)) (snd (m w)).
Proof. exact (fun H => H). Qed.

(** Reduces projections of worlds built by the setters. *)
Ltac wsimpl :=
  cbn [current_state current_attachment_step config uptime lte_connected_sem
       gps_fix_sem gps_fix_flag last_gps_data payload_buffer next_pass trace
       push with_trace with_attachment_step with_current_state with_uptime
       with_lte_sem with_gps_sem with_gps_data with_payload with_next_pass
       map_config recovery tle_config gps_coordinates_valid map_recovery
       with_lgs with_attempts with_recovery_time last_good_state
       recovery_attempts negb
       app_state_eqb is_error_or_recovery fst snd].
Ltac wsimpl_in H :=
  cbn [current_state current_attachment_step config uptime lte_connected_sem
       gps_fix_sem gps_fix_flag last_gps_data payload_buffer next_pass trace
       push with_trace with_attachment_step with_current_state with_uptime
       with_lte_sem with_gps_sem with_gps_data with_payload with_next_pass
       map_config recovery tle_config gps_coordinates_valid map_recovery
       with_lgs with_attempts with_recovery_time last_good_state
       recovery_attempts negb
       app_state_eqb is_error_or_recovery fst snd] in H.

Lemma wp_call_i {A} (m : M A) Q w : Q (fst (m w)) (snd (m w)) -> wp m Q w.
Proof. exact (fun H => H). Qed.

Lemma set_state_eq (s : app_state) (w : world) :
  set_state s w =
    (tt, if app_state_eqb s (current_state w) then w
         else with_current_state s
                (if is_error_or_recovery (current_state w)
                 then push (EvTransition (current_state w) s) w
                 else map_config (map_recovery (with_lgs (current_state w)))
                        (push (EvTransition (current_state w) s) w))).
Proof.
  unfold set_state, bind, gets, emit, modify, update_config, skip, ret.
  destruct (app_state_eqb s (current_state w)), (is_error_or_recovery (current_state w));
    reflexivity.
Qed.

Lemma wp_set_state_i s Q w :
  Q tt (snd (set_state s w)) -> wp (set_state s) Q w.
Proof. unfold wp. rewrite set_state_eq. exact (fun H => H). Qed.

Lemma take_lte_timeout (e : env) (timeout : Z) (w : world) :
  lte_connected_sem w = 0 -> registration_within e timeout = false ->
  take_lte e timeout w =
    (- EAGAIN, push (EvWait timeout timeout) (with_uptime (uptime w + timeout) w)).
Proof.
  intros Hs Hr. unfold take_lte, k_sem_take, lte_registration, registration_within in *.
  unfold bind, gets, advance, emit, modify, ret. rewrite Hs. cbn.
  destruct (registration_signal e) as [t|]; [rewrite Hr|]; reflexivity.
Qed.

Lemma take_lte_success (e : env) (timeout : Z) (w : world) :
  0 < timeout -> 0 <= lte_connected_sem w ->
  (0 < lte_connected_sem w \/ registration_within e timeout = true) ->
  fst (take_lte e timeout w) = 0 /\
  current_state (snd (take_lte e timeout w)) = current_state w /\
  exists t, 0 <= t < timeout /\
    trace (snd (take_lte e timeout w)) = EvWait timeout t :: trace w.
Proof.
  intros Ht Hn Hc. unfold take_lte, k_sem_take, lte_registration, registration_within in *.
  unfold bind, gets, advance, emit, modify, ret.
  destruct (0 <? lte_connected_sem w) eqn:Hs.
  - cbn. split; [reflexivity|split; [reflexivity|]]. exists 0. split; [lia|reflexivity].
  - destruct Hc as [Hc|Hc]; [apply Z.ltb_ge in Hs; lia|].
    destruct (registration_signal e) as [t|]; [|discriminate]. rewrite Hc.
    unfold lte_handler, update_config, give_lte, k_sem_give, modify. cbn.
    apply Z.ltb_ge in Hs. replace (lte_connected_sem w) with 0 by lia. cbn.
    apply andb_true_iff in Hc as [H1 H2]. apply Z.leb_le in H1. apply Z.ltb_lt in H2.
    split; [reflexivity|split; [reflexivity|]]. exists t. split; [lia|reflexivity].
Qed.

Lemma wp_modem_i e Q w :
  (forall tr, Q 0 (with_trace tr w)) ->
  wp (modem_configure_for_sateliot_attachment e) Q w.
Proof.
  intros H. unfold wp, modem_configure_for_sateliot_attachment, get_config,
    at_printf, bind, gets, emit, modify, skip, ret.
  destruct (gps_coordinates_valid (config w)); cbn.
  - exact (H _).
  - destruct w; exact (H _).
Qed.

(** Evaluates a closed [if] condition. *)
Ltac wp_if_eval :=
  lazymatch goal with
  | |- wp (if ?b then _ else _) _ _ =>
      let b' := eval vm_compute in b in
      lazymatch b' with
      | true => change b with true
      | false => change b with false
      end; cbv iota beta
  end.

(** Runs a successful [take_lte] whose world is in the goal. *)
Ltac take_lte_ok :=
  match goal with
  | |- context [take_lte ?e ?T ?w'] =>
      let HT := fresh "HT" in
      pose proof (take_lte_success e T w') as HT;
      destruct (take_lte e T w') as [?r ?w2]; wsimpl_in HT;
      specialize (HT ltac:(lia) ltac:(lia) ltac:(assumption));
      destruct HT as (?Hr & ?Hs & ?t & ?Ht & ?Htr); cbn [fst snd] in *; subst
  end.

(** One step of symbolic execution. *)
Ltac wp_step :=
  lazymatch goal with
  | |- wp (bind _ _) _ _ => apply wp_bind_i
  | |- wp (ret _) _ _ => apply wp_ret_i
  | |- wp (gets _) _ _ => apply wp_gets_i
  | |- wp (modify _) _ _ => apply wp_modify_i
  | |- wp k_uptime_get _ _ => apply wp_clock_i
  end; cbn beta.

(** Symbolic execution up to the calls it cannot decide. *)
Ltac wp_auto :=
  repeat (first [ wp_step | wp_if_eval | progress cbv beta iota zeta ]).

Ltac unfold_prims :=
  unfold take_lte, lte_registration, gnss_arrival, lte_handler,
    gnss_event_handler, update_device_coordinates, give_lte, give_gps,
    k_sem_give, k_sem_take, k_sleep, advance, wdt_feed, lte_lc_offline,
    lte_lc_connect_async, at_printf, emit, skip, get_config, update_config.

(** C5: the two attach phases.  In [AttachStep1], once the modem is
    configured, a registration wait that expires after its 5 minutes leads
    to [AttachStep2] (never [Error]) and a registration (or an already
    given semaphore) leads to [SendingData].  In [AttachStep2] the machine
    sleeps 30 s, requests the connection, waits up to 15 minutes; on
    success it goes to [SendingData], on timeout it takes the link offline
    and goes back to [AttachStep1]. *)
Theorem attach_two_phase_transitions (e : env) (w : world) :
  (current_state w = STATE_ATTEMPTING_CONNECTION_STEP1 ->
   fst (configure_nordic_for_sateliot e w) = 0 ->
   lte_connected_sem w = 0 -> registration_within e (5 * 60 * 1000) = false ->
   current_state (snd (case_step1 e w)) = STATE_ATTEMPTING_CONNECTION_STEP2 /\
   current_attachment_step (snd (case_step1 e w)) = ATTACH_STEP_2 /\
   In (EvWait (5 * 60 * 1000) (5 * 60 * 1000)) (trace (snd (case_step1 e w)))) /\
  (current_state w = STATE_ATTEMPTING_CONNECTION_STEP1 ->
   fst (configure_nordic_for_sateliot e w) = 0 -> 0 <= lte_connected_sem w ->
   (0 < lte_connected_sem w \/ registration_within e (5 * 60 * 1000) = true) ->
   current_state (snd (case_step1 e w)) = STATE_SENDING_DATA) /\
  (current_state w = STATE_ATTEMPTING_CONNECTION_STEP2 ->
   lte_connected_sem w = 0 -> registration_within e (15 * 60 * 1000) = false ->
   current_state (snd (case_step2 e w)) = STATE_ATTEMPTING_CONNECTION_STEP1 /\
   trace (snd (case_step2 e w)) =
     EvTransition STATE_ATTEMPTING_CONNECTION_STEP2 STATE_ATTEMPTING_CONNECTION_STEP1
     :: EvOffline :: EvWait (15 * 60 * 1000) (15 * 60 * 1000) :: EvConnect
     :: EvSleep 30000 :: trace w) /\
  (current_state w = STATE_ATTEMPTING_CONNECTION_STEP2 -> 0 <= lte_connected_sem w ->
   (0 < lte_connected_sem w \/ registration_within e (15 * 60 * 1000) = true) ->
   current_state (snd (case_step2 e w)) = STATE_SENDING_DATA /\
   exists t, 0 <= t < 15 * 60 * 1000 /\
     trace (snd (case_step2 e w)) =
       EvTransition STATE_ATTEMPTING_CONNECTION_STEP2 STATE_SENDING_DATA
       :: EvWait (15 * 60 * 1000) t :: EvConnect :: EvSleep 30000 :: trace w).
Proof.
  split; [|split; [|split]].
  - intros Hcur Hcfg Hsem Hreg.
    refine (wp_elim (case_step1 e)
      (fun _ w' => current_state w' = STATE_ATTEMPTING_CONNECTION_STEP2 /\
                   current_attachment_step w' = ATTACH_STEP_2 /\
                   In (EvWait (5 * 60 * 1000) (5 * 60 * 1000)) (trace w')) w _).
    unfold case_step1, CURRENT_INTEGRATION_PHASE; cbv iota.
    repeat wp_step.
    apply (wp_configure_i e w); [reflexivity|intros tr]. cbn beta. rewrite Hcfg.
    cbv iota beta. cbn [negb Z.eqb].
    repeat wp_step. apply wp_modem_i; intros tr'. repeat wp_step.
    cbv iota beta. unfold lte_lc_connect_async, emit. repeat wp_step.
    apply wp_call_i. rewrite take_lte_timeout by assumption. cbv beta.
    wp_if_eval. repeat wp_step. apply wp_set_state_i. rewrite set_state_eq.
    wsimpl. rewrite Hcur. cbn.
    split; [reflexivity|split; [reflexivity|right; left; reflexivity]].
  - intros Hcur Hcfg Hn Hok.
    refine (wp_elim (case_step1 e)
      (fun _ w' => current_state w' = STATE_SENDING_DATA) w _).
    unfold case_step1, CURRENT_INTEGRATION_PHASE; cbv iota.
    repeat wp_step.
    apply (wp_configure_i e w); [reflexivity|intros tr]. cbn beta. rewrite Hcfg.
    cbv iota beta. cbn [negb Z.eqb].
    repeat wp_step. apply wp_modem_i; intros tr'. repeat wp_step.
    cbv iota beta. unfold lte_lc_connect_async, emit. repeat wp_step.
    apply wp_call_i. take_lte_ok. cbv beta.
    wp_if_eval. apply wp_set_state_i. rewrite set_state_eq.
    rewrite Hs. wsimpl. rewrite Hcur. reflexivity.
  - intros Hcur Hsem Hreg.
    refine (wp_elim (case_step2 e)
      (fun _ w' => current_state w' = STATE_ATTEMPTING_CONNECTION_STEP1 /\
         trace w' =
         EvTransition STATE_ATTEMPTING_CONNECTION_STEP2 STATE_ATTEMPTING_CONNECTION_STEP1
         :: EvOffline :: EvWait (15 * 60 * 1000) (15 * 60 * 1000) :: EvConnect
         :: EvSleep 30000 :: trace w) w _).
    unfold case_step2, k_sleep, advance, lte_lc_connect_async, lte_lc_offline, emit.
    repeat wp_step.
    apply wp_call_i. rewrite take_lte_timeout by assumption. cbv beta.
    wp_if_eval. repeat wp_step. apply wp_set_state_i. rewrite set_state_eq.
    wsimpl. rewrite Hcur. cbn. split; reflexivity.
  - intros Hcur Hn Hok.
    refine (wp_elim (case_step2 e)
      (fun _ w' => current_state w' = STATE_SENDING_DATA /\
         exists t, 0 <= t < 15 * 60 * 1000 /\
         trace w' =
         EvTransition STATE_ATTEMPTING_CONNECTION_STEP2 STATE_SENDING_DATA
         :: EvWait (15 * 60 * 1000) t :: EvConnect :: EvSleep 30000 :: trace w) w _).
    unfold case_step2, k_sleep, advance, lte_lc_connect_async, lte_lc_offline, emit.
    repeat wp_step.
    apply wp_call_i. take_lte_ok. cbv beta.
    wp_if_eval. apply wp_set_state_i. rewrite set_state_eq.
    rewrite Hs, Hcur. cbn. rewrite Htr. split; [reflexivity|].
    exists t. split; [lia|reflexivity].
Qed.


Lemma attach_two_phase_transitions_witness :
  current_state (snd (case_step1 (sample_env (0, 0, 0))
    (with_current_state STATE_ATTEMPTING_CONNECTION_STEP1 initial_world)))
    = STATE_ATTEMPTING_CONNECTION_STEP2 /\
  current_state (snd (case_step2 (sample_env (0, 0, 0))
    (with_current_state STATE_ATTEMPTING_CONNECTION_STEP2 initial_world)))
    = STATE_ATTEMPTING_CONNECTION_STEP1.
Proof.
  split.
  - destruct (attach_two_phase_transitions (sample_env (0, 0, 0))
      (with_current_state STATE_ATTEMPTING_CONNECTION_STEP1 initial_world)) as [Ha _].
    exact (proj1 (Ha eq_refl eq_refl eq_refl eq_refl)).
  - destruct (attach_two_phase_transitions (sample_env (0, 0, 0))
      (with_current_state STATE_ATTEMPTING_CONNECTION_STEP2 initial_world)) as [_ [_ [Hc _]]].
    exact (proj1 (Hc eq_refl eq_refl eq_refl)).
Defined.

(** The timeout branch of [GETTING_GPS_FIX]. *)
Ltac gps_timeout Hcur :=
  wsimpl; destruct (gps_coordinates_valid (config _)); cbv iota;
  apply wp_set_state_i; rewrite set_state_eq; wsimpl; rewrite Hcur; cbn;
  (split; [exists 180000; split; [lia|split; [reflexivity|right; left; reflexivity]]|]);
  repeat split; intros; (reflexivity || discriminate).

(** C7: in [GETTING_GPS_FIX] the wait for the fix semaphore lasts at most
    180 s (the clock moves by the [t] of the recorded wait); a fix signalled
    within the window leads to [AttachStep1]; on timeout the machine goes to
    [AttachStep1] when the stored coordinates are valid and to [Idle]
    otherwise. *)
Theorem gps_fix_wait_outcomes (e : env) (w : world) :
  current_state w = STATE_GETTING_GPS_FIX ->
  (exists t, 0 <= t <= 180000 /\
     uptime (snd (case_getting_gps_fix e w)) = uptime w + t /\
     In (EvWait 180000 t) (trace (snd (case_getting_gps_fix e w)))) /\
  (fix_within e 180000 = true ->
   current_state (snd (case_getting_gps_fix e w)) = STATE_ATTEMPTING_CONNECTION_STEP1) /\
  (fix_within e 180000 = false -> gps_coordinates_valid (config w) = true ->
   current_state (snd (case_getting_gps_fix e w)) = STATE_ATTEMPTING_CONNECTION_STEP1) /\
  (fix_within e 180000 = false -> gps_coordinates_valid (config w) = false ->
   current_state (snd (case_getting_gps_fix e w)) = STATE_IDLE).
Proof.
  intros Hcur.
  refine (wp_elim (case_getting_gps_fix e)
    (fun _ w' =>
       (exists t, 0 <= t <= 180000 /\ uptime w' = uptime w + t /\
          In (EvWait 180000 t) (trace w')) /\
       (fix_within e 180000 = true ->
        current_state w' = STATE_ATTEMPTING_CONNECTION_STEP1) /\
       (fix_within e 180000 = false -> gps_coordinates_valid (config w) = true ->
        current_state w' = STATE_ATTEMPTING_CONNECTION_STEP1) /\
       (fix_within e 180000 = false -> gps_coordinates_valid (config w) = false ->
        current_state w' = STATE_IDLE)) w _).
  unfold case_getting_gps_fix, fix_within. unfold_prims.
  destruct (gnss_signal e) as [[t f]|] eqn:Hg.
  - destruct ((0 <=? t) && (t <? 180000)) eqn:Hin.
    + wp_auto.
      apply wp_set_state_i. rewrite set_state_eq. wsimpl. rewrite Hcur. cbn.
      apply andb_true_iff in Hin as [H1 H2]. apply Z.leb_le in H1. apply Z.ltb_lt in H2.
      split; [exists t; split; [lia|split; [lia|right; left; reflexivity]]|].
      split; [reflexivity|split; intros; discriminate].
    + wp_auto. gps_timeout Hcur.
  - wp_auto. gps_timeout Hcur.
Qed.

Lemma gps_fix_wait_outcomes_witness :
  current_state (snd (case_getting_gps_fix (sample_env (0, 0, 0))
    (with_current_state STATE_GETTING_GPS_FIX initial_world))) = STATE_IDLE.
Proof.
  destruct (gps_fix_wait_outcomes (sample_env (0, 0, 0))
    (with_current_state STATE_GETTING_GPS_FIX initial_world) eq_refl)
    as [_ [_ [_ Hd]]].
  exact (Hd eq_refl eq_refl).
Defined.

(** ** C1: the recovery counter *)

Lemma recovery_attempts_after (e : env) (s : app_state) (w : world) :
  recovery_attempts (recovery (config (snd (attempt_error_recovery e s w)))) =
  (let n := recovery_attempts (recovery (config w)) + 1 in
   if n =? 1 then 1 else if n =? 2 then 2 else 0).
Proof.
  refine (wp_elim (attempt_error_recovery e s)
    (fun _ w' => recovery_attempts (recovery (config w')) =
       (let n := recovery_attempts (recovery (config w)) + 1 in
        if n =? 1 then 1 else if n =? 2 then 2 else 0)) w _).
  unfold attempt_error_recovery, initialize_sateliot_config; unfold_prims. wp_auto.
  wsimpl.
  set (n := recovery_attempts (recovery (config w)) + 1).
  destruct (MAX_ERROR_RECOVERY_ATTEMPTS <? n) eqn:H1;
    destruct (n =? 1) eqn:H2; destruct (n =? 2) eqn:H3; wp_auto;
    try (eapply (wp_configure_i e _); [reflexivity|intros ?tr]);
    wsimpl; try reflexivity;
    unfold MAX_ERROR_RECOVERY_ATTEMPTS in H1;
    rewrite ?Z.ltb_lt, ?Z.ltb_ge, ?Z.eqb_eq, ?Z.eqb_neq in *; subst n; lia.
Qed.

Lemma recovery_level1_result (e : env) (s : app_state) (w : world) :
  recovery_attempts (recovery (config w)) = 0 ->
  fst (attempt_error_recovery e s w) = 0.
Proof.
  intros H0.
  refine (wp_elim (attempt_error_recovery e s) (fun r _ => r = 0) w _).
  unfold attempt_error_recovery; unfold_prims. wp_auto. wsimpl. rewrite H0.
  wp_auto. reflexivity.
Qed.

(** C1: starting from a counter of 0, the first three calls of
    [attempt_error_recovery] take the counter to 1, 2 and then back to 0,
    because level 3 re-runs [initialize_sateliot_config], which zeroes the
    recovery record; a fourth consecutive call therefore runs level 1 again
    and returns 0: the [-EFAULT] cap is never reached. *)
Theorem recovery_counter_never_reaches_cap (e : env) (w : world)
    (s1 s2 s3 s4 : app_state) :
  recovery_attempts (recovery (config w)) = 0 ->
  let w1 := snd (attempt_error_recovery e s1 w) in
  let w2 := snd (attempt_error_recovery e s2 w1) in
  let w3 := snd (attempt_error_recovery e s3 w2) in
  recovery_attempts (recovery (config w1)) = 1 /\
  recovery_attempts (recovery (config w2)) = 2 /\
  recovery_attempts (recovery (config w3)) = 0 /\
  fst (attempt_error_recovery e s4 w3) = 0 /\
  recovery_attempts (recovery (config (snd (attempt_error_recovery e s4 w3)))) = 1.
Proof.
  intros H0 w1 w2 w3.
  assert (E1 : recovery_attempts (recovery (config w1)) = 1).
  { unfold w1. rewrite recovery_attempts_after, H0. reflexivity. }
  assert (E2 : recovery_attempts (recovery (config w2)) = 2).
  { unfold w2. rewrite recovery_attempts_after, E1. reflexivity. }
  assert (E3 : recovery_attempts (recovery (config w3)) = 0).
  { unfold w3. rewrite recovery_attempts_after, E2. reflexivity. }
  split; [exact E1|split; [exact E2|split; [exact E3|split]]].
  - apply recovery_level1_result. exact E3.
  - rewrite recovery_attempts_after, E3. reflexivity.
Qed.

Lemma recovery_counter_never_reaches_cap_witness :
  recovery_attempts (recovery (config initial_world)) = 0 /\
  fst (attempt_error_recovery (sample_env (0, 0, 0)) STATE_ERROR
    (snd (attempt_error_recovery (sample_env (0, 0, 0)) STATE_ERROR
      (snd (attempt_error_recovery (sample_env (0, 0, 0)) STATE_ERROR
        (snd (attempt_error_recovery (sample_env (0, 0, 0)) STATE_ERROR
          initial_world))))))) = 0.
Proof.
  split; [reflexivity|].
  exact (proj1 (proj2 (proj2 (proj2
    (recovery_counter_never_reaches_cap (sample_env (0, 0, 0)) initial_world
       STATE_ERROR STATE_ERROR STATE_ERROR STATE_ERROR eq_refl))))).
Defined.

(** ** C3: watchdog cadence *)

Definition is_feed (ev : event) : bool :=
  match ev with EvFeed => true | _ => false end.

Definition feeds (l : list event) : nat := List.length (filter is_feed l).

(** C3: one pass of the main loop in [AttachStep1], with the modem
    configured and no registration, feeds the watchdog once and then
    blocks 5 minutes in [k_sem_take]: the pass lasts 300.5 s, five times
    the 60 s window ([window.max]) given to the watchdog. *)
Theorem watchdog_window_exceeded_in_attach_step1 :
  let w0 := with_current_state STATE_ATTEMPTING_CONNECTION_STEP1 initial_world in
  let w1 := snd (loop_iteration (sample_env (0, 0, 0)) w0) in
  feeds (trace w1) = 1%nat /\
  uptime w1 - uptime w0 = 300500 /\
  WDT_WINDOW_MAX_MS < uptime w1 - uptime w0.
Proof.
  vm_compute. split; [reflexivity|split; [reflexivity|reflexivity]].
Qed.

(** ** C9: the last good state *)

Definition lgs_ok (w : world) : Prop :=
  is_error_or_recovery (last_good_state (recovery (config w))) = false.

(** [m] preserves [lgs_ok]. *)
Definition keeps {A} (m : M A) : Prop := forall w, lgs_ok w -> lgs_ok (snd (m w)).

Lemma keeps_ret {A} (a : A) : keeps (ret a).
Proof. intros w Hw. exact Hw. Qed.

Lemma keeps_bind {A B} (m : M A) (k : A -> M B) :
  keeps m -> (forall a, keeps (k a)) -> keeps (bind m k).
Proof.
  intros Hm Hk w Hw. unfold bind. specialize (Hm w Hw).
  destruct (m w) as [a w']. exact (Hk a w' Hm).
Qed.

Lemma keeps_gets {A} (f : world -> A) : keeps (gets f).
Proof. intros w Hw. exact Hw. Qed.

Lemma keeps_modify f : (forall w, lgs_ok w -> lgs_ok (f w)) -> keeps (modify f).
Proof. intros Hf w Hw. exact (Hf w Hw). Qed.

Lemma keeps_clock : keeps k_uptime_get.
Proof. intros w Hw. exact Hw. Qed.

Lemma keeps_configure e : keeps (configure_nordic_for_sateliot e).
Proof. intros w Hw. rewrite configure_frame. exact Hw. Qed.

Lemma keeps_set_state s : keeps (set_state s).
Proof.
  intros w Hw. unfold lgs_ok. rewrite set_state_eq. cbn [snd].
  destruct (app_state_eqb s (current_state w)); [exact Hw|].
  destruct (is_error_or_recovery (current_state w)) eqn:He; [exact Hw|].
  exact He.
Qed.

Lemma keeps_run_all {A} (h : A -> M unit) (l : list A) :
  (forall x, keeps (h x)) -> keeps (run_all h l).
Proof.
  intros Hh. induction l as [|x l IH]; cbn.
  - apply keeps_ret.
  - apply keeps_bind; [apply Hh|intros _; exact IH].
Qed.

Ltac keeps_solve :=
  repeat (cbv beta iota zeta;
    match goal with
    | |- keeps (bind _ _) => apply keeps_bind; [|intros ?]
    | |- keeps (ret _) => apply keeps_ret
    | |- keeps (gets _) => apply keeps_gets
    | |- keeps k_uptime_get => apply keeps_clock
    | |- keeps (modify _) =>
        apply keeps_modify; intros ?w ?Hw; unfold lgs_ok in *; cbn in *;
        first [assumption | reflexivity]
    | |- keeps (set_state _) => apply keeps_set_state
    | |- keeps (configure_nordic_for_sateliot _) => apply keeps_configure
    | |- keeps (run_all _ _) => apply keeps_run_all; intros ?
    | |- keeps (if ?b then _ else _) => destruct b
    | |- keeps (match ?x with _ => _ end) =>
        lazymatch x with
        | match ?y with _ => _ end => destruct y
        | _ => destruct x
        end
    end).

Lemma keeps_send_loop e n r : keeps (send_loop e n r).
Proof.
  revert r. induction n as [|n IH]; intros r; cbn [send_loop].
  - apply keeps_ret.
  - unfold k_sleep, advance, emit. keeps_solve; apply IH.
Qed.

Lemma keeps_loop_iteration e : keeps (loop_iteration e).
Proof.
  unfold loop_iteration, state_step, case_idle, case_tle_update,
    case_getting_gps_fix, case_step1, case_step2, case_sending_data,
    case_recovery, attempt_error_recovery, initialize_sateliot_config,
    update_sateliot_tles, calculate_sateliot_satellite_pass,
    format_telemetry_data, robust_data_send,
    modem_configure_for_sateliot_attachment.
  unfold_prims.
  keeps_solve; apply keeps_send_loop.
Qed.

Lemma keeps_main_prologue a b c : keeps (main_prologue a b c).
Proof.
  unfold main_prologue, initialize_sateliot_config. unfold_prims. keeps_solve.
Qed.

(** C9: [set_state] writes [last_good_state] exactly on a transition
    (new state different from the current one) whose source is neither
    [ERROR] nor [RECOVERY], and then writes that source; otherwise the
    field is left alone.  Consequently, in every world the main loop
    reaches, [last_good_state] is neither [ERROR] nor [RECOVERY]. *)
Theorem last_good_state_tracking :
  (forall s w,
     last_good_state (recovery (config (snd (set_state s w)))) =
     if negb (app_state_eqb s (current_state w)) &&
        negb (is_error_or_recovery (current_state w))
     then current_state w
     else last_good_state (recovery (config w))) /\
  (forall w, reachable w ->
     is_error_or_recovery (last_good_state (recovery (config w))) = false).
Proof.
  split.
  - intros s w. rewrite set_state_eq. cbn [snd].
    destruct (app_state_eqb s (current_state w)); [reflexivity|].
    destruct (is_error_or_recovery (current_state w)); reflexivity.
  - intros w Hr. induction Hr as [a b c w Hb|e w _ IH].
    + change (lgs_ok w).
      replace w with (snd (main_prologue a b c initial_world)) by (rewrite Hb; reflexivity).
      apply keeps_main_prologue. reflexivity.
    + exact (keeps_loop_iteration e w IH).
Qed.

Lemma last_good_state_tracking_witness :
  reachable (snd (main_prologue 0 0 0 initial_world)) /\
  is_error_or_recovery
    (last_good_state (recovery (config (snd (main_prologue 0 0 0 initial_world))))) = false.
Proof.
  assert (Hr : reachable (snd (main_prologue 0 0 0 initial_world))).
  { apply (reach_boot 0 0 0). reflexivity. }
  split; [exact Hr|].
  exact (proj2 last_good_state_tracking _ Hr).
Defined.

(* ================================================================= *)
(** * Further properties of the code *)

(** ** Pass predictor *)

(** X1: for a non-negative uptime, the predicted pass starts strictly
    after the current time and at most 13 hours later, and it starts at
    10:00 or 21:00 of the (uptime) day. *)
Theorem predict_pass_start_window (current_time : Z) (lat : Q) (r1 r2 r3 : Z) :
  0 <= current_time ->
  let p := predict_pass current_time lat r1 r2 r3 in
  current_time < start_time p <= current_time + 13 * 60 * 60 * 1000 /\
  (Z.rem (start_time p) DAY_MS = 10 * 60 * 60 * 1000 \/
   Z.rem (start_time p) DAY_MS = 21 * 60 * 60 * 1000).
Proof.
  intros Hc p. subst p. unfold predict_pass. cbv zeta. cbn [start_time].
  unfold DAY_MS in *.
  rewrite Z.rem_mod_nonneg by lia.
  pose proof (Z.div_mod current_time (24 * 60 * 60 * 1000) ltac:(lia)) as Hdm.
  pose proof (Z.mod_pos_bound current_time (24 * 60 * 60 * 1000) ltac:(lia)) as Hb.
  set (q := current_time / (24 * 60 * 60 * 1000)) in *.
  set (t := current_time mod (24 * 60 * 60 * 1000)) in *.
  assert (Hq : 0 <= q) by (apply Z.div_pos; lia).
  destruct (t <? 10 * 60 * 60 * 1000) eqn:E1;
    [|destruct (t <? 21 * 60 * 60 * 1000) eqn:E2];
    rewrite ?Z.ltb_lt, ?Z.ltb_ge in *;
    rewrite Z.rem_mod_nonneg by lia.
  - split; [lia|left].
    symmetry; apply (Z.mod_unique _ _ q); lia.
  - split; [lia|right].
    symmetry; apply (Z.mod_unique _ _ q); lia.
  - split; [lia|left].
    symmetry; apply (Z.mod_unique _ _ (q + 1)); lia.
Qed.

Lemma predict_pass_start_window_witness :
  0 <= 36000001 /\
  36000001 < start_time (predict_pass 36000001 45 0 0 0) <=
    36000001 + 13 * 60 * 60 * 1000.
Proof.
  split; [lia|].
  exact (proj1 (predict_pass_start_window 36000001 45 0 0 0 ltac:(lia))).
Defined.

(** X2: with valid coordinates the predictor reads the clock once and
    returns 0 with a pass whose maximum elevation lies in 30 .. 85 degrees,
    whose satellite id lies in 0 .. 3 and which is marked predicted (for
    non-negative [rand()] results); the ground longitude does not affect
    the result. *)
Theorem prediction_fields (e : env) (p0 : satellite_pass) (lat lon lon' : Q) (w : world) :
  gps_coordinates_valid (config w) = true ->
  0 <= snd (fst (rand_values e)) -> 0 <= snd (rand_values e) ->
  exists p,
    calculate_sateliot_satellite_pass e (Some p0) lat lon w = ((0, Some p), push EvClock w) /\
    30 <= max_elevation p <= 85 /\ 0 <= satellite_id p <= 3 /\ is_predicted p = true /\
    calculate_sateliot_satellite_pass e (Some p0) lat lon' w =
      calculate_sateliot_satellite_pass e (Some p0) lat lon w.
Proof.
  intros Hv H2 H3.
  unfold calculate_sateliot_satellite_pass, bind, get_config, gets, k_uptime_get, ret.
  rewrite Hv. cbn.
  destruct (rand_values e) as [[r1 r2] r3]; cbn in H2, H3.
  eexists. split; [reflexivity|].
  unfold predict_pass; cbv zeta; cbn [max_elevation satellite_id is_predicted].
  pose proof (Z.rem_bound_pos r2 56 H2 ltac:(lia)).
  pose proof (Z.rem_bound_pos r3 4 H3 ltac:(lia)).
  split; [lia|split; [lia|split; reflexivity]].
Qed.

Lemma prediction_fields_witness :
  exists p,
    calculate_sateliot_satellite_pass (sample_env (7, 55, 9)) (Some (next_pass initial_world))
      45 2 (map_config (with_coordinates 45 2 0) initial_world) =
      ((0, Some p), push EvClock (map_config (with_coordinates 45 2 0) initial_world)) /\
    30 <= max_elevation p <= 85.
Proof.
  destruct (prediction_fields (sample_env (7, 55, 9)) (next_pass initial_world) 45 2 2
              (map_config (with_coordinates 45 2 0) initial_world) eq_refl
              ltac:(vm_compute; discriminate) ltac:(vm_compute; discriminate))
    as [p [Hp [Hel _]]].
  exists p. split; [exact Hp|exact Hel].
Defined.

(** ** Modem GPS position parameters *)

Lemma trunc_Q_abs (q : Q) (k : Z) :
  0 <= k -> (- inject_Z k <= q <= inject_Z k)%Q -> - k <= trunc_Q q <= k.
Proof.
  destruct q as [n d]; unfold trunc_Q, Qle, inject_Z; cbn.
  intros Hk [H1 H2].
  destruct (Z.le_gt_cases 0 n) as [Hn|Hn].
  - rewrite Z.quot_div_nonneg by lia.
    split; [pose proof (Z.div_pos n (Z.pos d)); lia|].
    apply Z.div_le_upper_bound; lia.
  - replace n with (- (- n)) by lia. rewrite Z.quot_opp_l by lia.
    rewrite Z.quot_div_nonneg by lia.
    split; [|pose proof (Z.div_pos (- n) (Z.pos d)); lia].
    enough (- n / Z.pos d <= k) by lia.
    apply Z.div_le_upper_bound; lia.
Qed.

(** X3: for a position with [|lat| <= 90] and [|lon| <= 180] degrees and
    an altitude ([device_alt], the PVT altitude in metres) of at most
    2000 km in absolute value, the [AT%XSETGPSPOS] parameters are in range:
    latitude 0 .. 180000, longitude 0 .. 360000 and altitude (in mm)
    within +-2000000000, so all three fit in a 32-bit C [int]. *)
Theorem gps_pos_cmd_ranges (c : sateliot_config) :
  (Qabs (device_lat c) <= 90)%Q -> (Qabs (device_lon c) <= 180)%Q ->
  (Qabs (device_alt c) <= 2000000)%Q ->
  match gps_pos_cmd c with
  | AT_XSETGPSPOS lon lat alt =>
      0 <= lat <= 180000 /\ 0 <= lon <= 360000 /\ - 2000000000 <= alt <= 2000000000 /\
      - 2 ^ 31 <= alt <= 2 ^ 31 - 1
  | _ => False
  end.
Proof.
  intros Hlat Hlon Halt. unfold gps_pos_cmd; cbv zeta.
  apply Qabs_Qle_condition in Hlat, Hlon, Halt.
  assert (A1 : - 90000 <= trunc_Q (device_lat c * 1000) <= 90000).
  { apply (trunc_Q_abs _ 90000); [lia|].
    change (inject_Z 90000) with (90000 # 1). destruct Hlat. split; lra. }
  assert (A2 : - 180000 <= trunc_Q (device_lon c * 1000) <= 180000).
  { apply (trunc_Q_abs _ 180000); [lia|].
    change (inject_Z 180000) with (180000 # 1). destruct Hlon. split; lra. }
  assert (A3 : - 2000000000 <= trunc_Q (device_alt c * 1000) <= 2000000000).
  { apply (trunc_Q_abs _ 2000000000); [lia|].
    change (inject_Z 2000000000) with (2000000000 # 1). destruct Halt. split; lra. }
  lia.
Qed.

Lemma gps_pos_cmd_ranges_witness :
  gps_pos_cmd (with_coordinates (-90) 180 (-2000000) (config initial_world)) =
    AT_XSETGPSPOS 360000 0 (-2000000000) /\
  - 2000000000 <= -2000000000 <= 2000000000.
Proof.
  split; [vm_compute; reflexivity|].
  pose proof (gps_pos_cmd_ranges (with_coordinates (-90) 180 (-2000000) (config initial_world))
    ltac:(vm_compute; discriminate) ltac:(vm_compute; discriminate)
    ltac:(vm_compute; discriminate)) as H.
  vm_compute in H. exact (proj1 (proj2 (proj2 H))).
Defined.

(** ** Modem configuration sequence *)

(** The AT commands [configure_nordic_for_sateliot] issues, in order. *)
Definition sateliot_at_sequence (c : sateliot_config) : list at_cmd :=
  [AT_CFUN_12; AT_XBANDLOCK_64; AT_CHSELECT; AT_XNTNFEAT] ++
  (if gps_coordinates_valid c then [gps_pos_cmd c] else []) ++ [AT_COPS_SATELIOT].

(** Sends commands until one fails: the result code and the commands sent. *)
Fixpoint send_until_error (e : env) (l : list at_cmd) : Z * list at_cmd :=
  match l with
  | [] => (0, [])
  | c :: l' =>
      if at_result e c =? 0 then
        let (r, sent) := send_until_error e l' in (r, c :: sent)
      else (at_result e c, [c])
  end.

(** X4: [configure_nordic_for_sateliot] sends CFUN=12, the band-64 lock,
    the channel selection, the NTN features, the GPS position (only when the
    coordinates are valid) and the Sateliot PLMN, in this order; it stops at
    the first command that fails and returns its error (0 when all
    succeed); nothing but the trace changes. *)
Theorem configure_sends_until_first_error (e : env) (w : world) :
  configure_nordic_for_sateliot e w =
    (fst (send_until_error e (sateliot_at_sequence (config w))),
     with_trace (rev (map EvAt (snd (send_until_error e (sateliot_at_sequence (config w)))))
                 ++ trace w) w).
Proof.
  destruct w as [cs ca cf up ls gs gf gd pb np tr].
  unfold configure_nordic_for_sateliot, sateliot_at_sequence, check, at_printf,
    get_config, bind, emit, modify, gets, ret, push, with_trace; cbn.
  destruct (gps_coordinates_valid cf) eqn:Hg;
    repeat (cbn; rewrite ?Hg;
            match goal with
            | |- context [at_result e ?c =? 0] => destruct (at_result e c =? 0) eqn:?
            end);
    cbn; rewrite ?Hg;
    repeat match goal with
           | H : (at_result e _ =? 0) = true |- _ => apply Z.eqb_eq in H; rewrite ?H
           end;
    reflexivity.
Qed.

(** ** Data transmission *)

(** [robust_data_send] only sleeps and sends: every field but the clock
    and the trace is left as it was. *)
Lemma robust_data_send_frame (e : env) (w : world) :
  snd (robust_data_send e w) =
    with_uptime (uptime (snd (robust_data_send e w)))
      (with_trace (trace (snd (robust_data_send e w))) w).
Proof.
  destruct w. unfold robust_data_send. cbn [send_loop].
  unfold k_sleep, advance, emit, modify, bind, ret; cbn.
  repeat (match goal with
          | |- context [send_outcome_at e ?k] => destruct (send_outcome_at e k)
          end; cbn);
    reflexivity.
Qed.

(** X5: [robust_data_send] returns 0 exactly when one of its three
    attempts (retry counts 0, 1, 2) has [sendto] succeed, and [-EIO]
    otherwise; it sleeps at most 3 x 15 s in total and changes nothing but
    the clock and the trace. *)
Theorem robust_data_send_outcome (e : env) (w : world) :
  let r := fst (robust_data_send e w) in
  let w' := snd (robust_data_send e w) in
  (r = 0 <-> exists k, 0 <= k < 3 /\ send_outcome_at e k = SENDTO_OK) /\
  (r = 0 \/ r = - EIO) /\
  uptime w <= uptime w' <= uptime w + 3 * 15000 /\
  w' = with_uptime (uptime w') (with_trace (trace w') w).
Proof.
  cbv zeta. split; [|split; [|split; [|apply robust_data_send_frame]]];
    unfold robust_data_send; cbn [send_loop];
    unfold k_sleep, advance, emit, modify, bind, ret; cbn;
    repeat (match goal with
            | |- context [send_outcome_at e ?k] => destruct (send_outcome_at e k) eqn:?
            end; cbn).
  all: try lia.
  all: try (left; reflexivity); try (right; reflexivity).
  all: split; [intros H; discriminate H || (eexists; split; [|eassumption]; lia)
              |intros (k & Hk & Hok);
               first [reflexivity
                     |assert (Hk' : k = 0 \/ k = 1 \/ k = 2) by lia;
                      destruct Hk' as [Hk'|[Hk'|Hk']]; subst k; congruence]].
Qed.

(** ** Telemetry buffer contents *)

Lemma list_ascii_of_string_length (s : string) :
  List.length (list_ascii_of_string s) = String.length s.
Proof. induction s as [|a s IH]; cbn; [reflexivity|now rewrite IH]. Qed.

(** What [snprintf] leaves in a buffer of at least [size] bytes: the
    length is kept, the first [n] bytes are the text, byte [n] is the NUL
    and every byte after it is untouched, where [n] is the text length
    capped at [size - 1]. *)
Lemma snprintf_write_layout (buf : list ascii) (size : Z) (text : string) :
  0 < size <= Z.of_nat (List.length buf) ->
  let n := Nat.min (String.length text) (Z.to_nat (size - 1)) in
  let buf' := snprintf_write buf size text in
  List.length buf' = List.length buf /\
  firstn n buf' = firstn n (list_ascii_of_string text) /\
  nth_error buf' n = Some zero /\
  (forall i, (n < i)%nat -> nth_error buf' i = nth_error buf i).
Proof.
  intros Hs n buf'. unfold buf', snprintf_write. fold n.
  assert (Hn : (n <= String.length text)%nat) by apply Nat.le_min_l.
  assert (Hn' : (n < List.length buf)%nat).
  { unfold n. pose proof (Nat.le_min_r (String.length text) (Z.to_nat (size - 1))). lia. }
  assert (Hf : List.length (firstn n (list_ascii_of_string text)) = n).
  { rewrite length_firstn, list_ascii_of_string_length. lia. }
  split; [|split; [|split]].
  - rewrite !length_app, Hf, length_skipn. cbn. lia.
  - rewrite firstn_app, Hf, Nat.sub_diag, firstn_O, app_nil_r, firstn_firstn.
    now rewrite Nat.min_id.
  - rewrite nth_error_app2 by lia. rewrite Hf, Nat.sub_diag. reflexivity.
  - intros i Hi. rewrite app_assoc.
    assert (Hf1 : List.length (firstn n (list_ascii_of_string text) ++ [zero]) = S n).
    { rewrite length_app, Hf. cbn. lia. }
    rewrite nth_error_app2 by lia. rewrite Hf1, nth_error_skipn. f_equal. lia.
Qed.

(** X6: [format_telemetry_data] never writes outside the first
    [buffer_size] bytes: for a buffer of at least [buffer_size] bytes, the
    buffer it returns has the same length and the same bytes from index
    [buffer_size] on, whatever the code it returns. *)
Theorem format_telemetry_stays_in_buffer (e : env) (buf : list ascii) (size : Z) (w : world) :
  size <= Z.of_nat (List.length buf) ->
  exists buf',
    snd (fst (format_telemetry_data e (Some buf) size w)) = Some buf' /\
    List.length buf' = List.length buf /\
    forall i, size <= Z.of_nat i -> nth_error buf' i = nth_error buf i.
Proof.
  intros Hsz.
  unfold format_telemetry_data, bind, k_uptime_get, get_config, gets, ret.
  destruct (size =? 0) eqn:H0; [eexists; split; [reflexivity|auto]|].
  destruct (negb _) eqn:H1; [eexists; split; [reflexivity|auto]|].
  destruct (size <? 120 + TELEMETRY_SAFETY_MARGIN) eqn:H2;
    [eexists; split; [reflexivity|auto]|].
  unfold validate_buffer_safety, MIN_BUFFER_SIZE_TELEMETRY, TELEMETRY_SAFETY_MARGIN in *.
  apply Z.eqb_neq in H0. apply Z.ltb_ge in H2.
  set (text := render_telemetry e _ _ _ _ _).
  destruct (snprintf_write_layout buf size text) as (Hl & _ & _ & Hrest); [lia|].
  assert (Hkeep : forall i, size <= Z.of_nat i ->
            nth_error (snprintf_write buf size text) i = nth_error buf i).
  { intros i Hi. apply Hrest. pose proof (Nat.le_min_r (String.length text) (Z.to_nat (size - 1))).
    lia. }
  cbn. destruct (size <=? _); [|destruct (_ <? 50)]; cbn;
    (eexists; split; [reflexivity|split; [exact Hl|exact Hkeep]]).
Qed.

(** X7: when [format_telemetry_data] succeeds on a buffer of at least
    [buffer_size] bytes, the rendered text (its uptime stamp, the stored
    coordinates or zeros, the satellite count or 0) is between 50 and
    [buffer_size - 1] characters long and the buffer holds all of it
    followed by the NUL; the only other effect is the clock read. *)
Theorem format_telemetry_success_holds_text (e : env) (buf : list ascii) (size : Z) (w : world) :
  size <= Z.of_nat (List.length buf) ->
  let c := config w in
  let ok := gps_coordinates_valid c in
  let text := render_telemetry e (uptime w)
                (if ok then device_lat c else 0%Q)
                (if ok then device_lon c else 0%Q)
                (if ok then device_alt c else 0%Q)
                (if gps_fix_flag w then fix_sv_count (last_gps_data w) else 0) in
  fst (fst (format_telemetry_data e (Some buf) size w)) = 0 ->
  50 <= Z.of_nat (String.length text) < size /\
  snd (format_telemetry_data e (Some buf) size w) = push EvClock w /\
  exists buf',
    snd (fst (format_telemetry_data e (Some buf) size w)) = Some buf' /\
    firstn (String.length text) buf' = list_ascii_of_string text /\
    nth_error buf' (String.length text) = Some zero.
Proof.
  intros Hsz c ok text.
  unfold format_telemetry_data, bind, k_uptime_get, get_config, gets, ret.
  destruct (size =? 0) eqn:H0; [cbn; intros H; discriminate H|].
  destruct (negb _) eqn:H1; [cbn; intros H; discriminate H|].
  destruct (size <? 120 + TELEMETRY_SAFETY_MARGIN) eqn:H2; [cbn; intros H; discriminate H|].
  cbn [fst snd push config uptime gps_fix_flag last_gps_data]. fold c ok text.
  apply Z.eqb_neq in H0.
  destruct (size <=? Z.of_nat (String.length text)) eqn:H3; [cbn; intros H; discriminate H|].
  destruct (Z.of_nat (String.length text) <? 50) eqn:H4; [cbn; intros H; discriminate H|].
  intros _. apply Z.leb_gt in H3. apply Z.ltb_ge in H4.
  split; [lia|split; [reflexivity|]].
  destruct (snprintf_write_layout buf size text) as (_ & Hpre & Hnul & _); [lia|].
  assert (Hn : Nat.min (String.length text) (Z.to_nat (size - 1)) = String.length text) by lia.
  rewrite Hn in Hpre, Hnul.
  eexists; split; [reflexivity|split; [|exact Hnul]].
  rewrite Hpre, firstn_all2; [reflexivity|].
  rewrite list_ascii_of_string_length. lia.
Qed.

(** X8: with invalid stored coordinates and no valid fix, the telemetry
    encoder reports zeros: its code and buffer do not depend on the stored
    latitude, longitude and altitude nor on the last PVT frame. *)
Theorem format_telemetry_ignores_stale_inputs (e : env) (buf : list ascii) (size : Z)
    (w : world) (lat lon alt : Q) (d : gnss_fix) :
  gps_coordinates_valid (config w) = false -> gps_fix_flag w = false ->
  let w2 := with_gps_data false d
              (map_config (fun c => mk_config (server_ip c) (server_port c) lat lon alt
                                      (satellites c) (gps_coordinates_valid c)
                                      (tle_config c) (recovery c)) w) in
  fst (format_telemetry_data e (Some buf) size w2) =
  fst (format_telemetry_data e (Some buf) size w).
Proof.
  intros Hv Hf w2. subst w2.
  destruct w as [cs ca [ip port la lo al sats v tc rc] up ls gs gf gd pb np tr].
  cbn in Hv, Hf. subst v gf.
  unfold format_telemetry_data, bind, k_uptime_get, get_config, gets, ret; cbn.
  split_ifs; reflexivity.
Qed.

Lemma format_telemetry_ignores_stale_inputs_witness :
  gps_coordinates_valid (config initial_world) = false /\
  gps_fix_flag initial_world = false /\
  fst (format_telemetry_data (sample_env (0, 0, 0)) (Some (payload_buffer initial_world))
         PAYLOAD_BUFFER_SIZE
         (with_gps_data false (mk_fix 41 2 100 7)
            (map_config (fun c => mk_config (server_ip c) (server_port c) 41 2 100
                                    (satellites c) (gps_coordinates_valid c)
                                    (tle_config c) (recovery c)) initial_world))) =
  fst (format_telemetry_data (sample_env (0, 0, 0)) (Some (payload_buffer initial_world))
         PAYLOAD_BUFFER_SIZE initial_world).
Proof.
  split; [reflexivity|split; [reflexivity|]].
  exact (format_telemetry_ignores_stale_inputs (sample_env (0, 0, 0))
           (payload_buffer initial_world) PAYLOAD_BUFFER_SIZE initial_world 41 2 100
           (mk_fix 41 2 100 7) eq_refl eq_refl).
Defined.

(** X9: a pass in [SENDING_DATA] with the 256-byte payload buffer always
    ends in [IDLE], records [SENDING_DATA] as the last good state and keeps
    the buffer length; on every path (encoder failure or not, whatever the
    send result) its last two events are [lte_lc_offline] and then the
    transition to [IDLE]; when the encoder fails, nothing is sent: the pass
    only reads the clock, goes offline and logs the transition. *)
Theorem sending_data_pass (e : env) (w : world) :
  current_state w = STATE_SENDING_DATA ->
  PAYLOAD_BUFFER_SIZE <= Z.of_nat (List.length (payload_buffer w)) ->
  let w' := snd (case_sending_data e w) in
  current_state w' = STATE_IDLE /\
  last_good_state (recovery (config w')) = STATE_SENDING_DATA /\
  List.length (payload_buffer w') = List.length (payload_buffer w) /\
  (exists tr, trace w' = EvTransition STATE_SENDING_DATA STATE_IDLE :: EvOffline :: tr) /\
  (fst (fst (format_telemetry_data e (Some (payload_buffer w)) PAYLOAD_BUFFER_SIZE w)) <> 0 ->
   trace w' = EvTransition STATE_SENDING_DATA STATE_IDLE :: EvOffline :: EvClock :: trace w).
Proof.
  intros Hcur Hlen w'. subst w'.
  unfold case_sending_data, format_telemetry_data, bind, gets, k_uptime_get, get_config,
    ret, modify, skip, lte_lc_offline, emit.
  cbn -[robust_data_send set_state snprintf_write render_telemetry].
  set (text := render_telemetry e _ _ _ _ _).
  destruct (snprintf_write_layout (payload_buffer w) PAYLOAD_BUFFER_SIZE text)
    as (Hl & _ & _ & _); [unfold PAYLOAD_BUFFER_SIZE in *; lia|].
  destruct (PAYLOAD_BUFFER_SIZE <=? _); [|destruct (_ <? 50)];
    cbn -[robust_data_send set_state snprintf_write].
  - rewrite set_state_eq. cbn. rewrite Hcur. cbn.
    split; [reflexivity|split; [reflexivity|split; [exact Hl|split; [eexists; reflexivity|reflexivity]]]].
  - rewrite set_state_eq. cbn. rewrite Hcur. cbn.
    split; [reflexivity|split; [reflexivity|split; [exact Hl|split; [eexists; reflexivity|reflexivity]]]].
  - set (w1 := with_payload _ _).
    pose proof (robust_data_send_frame e w1) as Hf.
    destruct (robust_data_send e w1) as [r w2]. cbn [snd] in Hf |- *. rewrite Hf.
    unfold ret; cbn -[set_state]. rewrite set_state_eq. cbn. rewrite Hcur. cbn.
    split; [reflexivity|split; [reflexivity|split; [exact Hl|split; [eexists; reflexivity|]]]].
    intros H; destruct H; reflexivity.
Qed.

Lemma sending_data_pass_witness :
  let w := with_current_state STATE_SENDING_DATA initial_world in
  current_state w = STATE_SENDING_DATA /\
  PAYLOAD_BUFFER_SIZE <= Z.of_nat (List.length (payload_buffer w)) /\
  trace (snd (case_sending_data (sample_env (0, 0, 0)) w)) =
    EvTransition STATE_SENDING_DATA STATE_IDLE :: EvOffline :: EvClock :: trace w.
Proof.
  cbv zeta. split; [reflexivity|split; [vm_compute; discriminate|]].
  apply (sending_data_pass (sample_env (0, 0, 0))
           (with_current_state STATE_SENDING_DATA initial_world));
    [reflexivity|vm_compute; discriminate|vm_compute; discriminate].
Defined.

(** ** Ephemeris refresh and configuration reset *)

(** X10: a second [update_sateliot_tles] right after the first (same
    uptime) never changes the configuration again: a refresh that ran
    clears [update_needed] and stamps the current time, with an interval
    of 24 or 48 hours, so zero hours have elapsed. *)
Theorem tle_refresh_idempotent (w : world) :
  config (snd (update_sateliot_tles (snd (update_sateliot_tles w)))) =
  config (snd (update_sateliot_tles w)).
Proof.
  rewrite (update_sateliot_tles_eq w). cbv zeta.
  destruct (_ && _) eqn:H.
  - rewrite update_sateliot_tles_eq. cbv zeta. wsimpl. rewrite H. reflexivity.
  - rewrite update_sateliot_tles_eq. cbv zeta. wsimpl. cbn [map_tle_config tle_config
      last_update_time update_interval_hours update_needed].
    rewrite Z.sub_diag. destruct (3 <? _); reflexivity.
Qed.

(** X11: [initialize_sateliot_config] returns 0, leaves exactly the first
    of the four TLE slots valid, and is idempotent: running it again on
    its own result changes nothing. *)
Theorem initialize_config_idempotent (w : world) :
  let w1 := snd (initialize_sateliot_config w) in
  fst (initialize_sateliot_config w) = 0 /\
  snd (initialize_sateliot_config w1) = w1 /\
  map valid (satellites (config w1)) = [true; false; false; false].
Proof.
  cbv zeta. destruct w as [cs ca [ip port la lo al sats v tc rc] up ls gs gf gd pb np tr].
  unfold initialize_sateliot_config, get_config, update_config, bind, gets, modify, ret.
  cbn. split; [reflexivity|split; reflexivity].
Qed.

(** A collaborator environment whose [snprintf] renders a 60-character record. *)
Definition telemetry_env : env :=
  mk_env (fun _ => 0) None None [] [] (0, 0, 0) (fun _ => SENDTO_OK)
    (fun _ _ _ _ _ => "{ts:0,lat:0.000000,lon:0.000000,alt:0.0,sats:0,ntn:sateliot}"%string).

Lemma format_telemetry_stays_in_buffer_witness :
  200 <= Z.of_nat (List.length (payload_buffer initial_world)) /\
  exists buf',
    snd (fst (format_telemetry_data telemetry_env (Some (payload_buffer initial_world))
                200 initial_world)) = Some buf' /\
    List.length buf' = List.length (payload_buffer initial_world) /\
    forall i, 200 <= Z.of_nat i -> nth_error buf' i = nth_error (payload_buffer initial_world) i.
Proof.
  split; [vm_compute; discriminate|].
  apply format_telemetry_stays_in_buffer. vm_compute; discriminate.
Defined.

Lemma format_telemetry_success_holds_text_witness :
  PAYLOAD_BUFFER_SIZE <= Z.of_nat (List.length (payload_buffer initial_world)) /\
  fst (fst (format_telemetry_data telemetry_env (Some (payload_buffer initial_world))
              PAYLOAD_BUFFER_SIZE initial_world)) = 0 /\
  snd (format_telemetry_data telemetry_env (Some (payload_buffer initial_world))
         PAYLOAD_BUFFER_SIZE initial_world) = push EvClock initial_world.
Proof.
  split; [vm_compute; discriminate|split; [vm_compute; reflexivity|]].
  apply (format_telemetry_success_holds_text telemetry_env (payload_buffer initial_world)
           PAYLOAD_BUFFER_SIZE initial_world);
    [vm_compute; discriminate|vm_compute; reflexivity].
Defined.

Lemma wp_forget {A} (m : M A) Q w : (forall a w1, Q a w1) -> wp m Q w.
Proof. intros H. apply H. Qed.

Lemma keeps_attempt_error_recovery e s : keeps (attempt_error_recovery e s).
Proof.
  unfold attempt_error_recovery, initialize_sateliot_config. unfold_prims. keeps_solve.
Qed.

(** Symbolic execution up to the final [set_state], forgetting every
    other result. *)
Ltac wp_to_final_state :=
  repeat (first
    [ wp_step
    | wp_if_eval
    | progress cbv beta iota zeta
    | lazymatch goal with
      | |- wp (set_state _) _ _ => apply wp_set_state_i
      | |- wp (if ?b then _ else _) _ _ => destruct b
      | |- wp (match ?x with _ => _ end) _ _ => destruct x
      | |- wp _ _ _ => apply wp_forget; intros ?a ?w
      end ]);
  wsimpl; rewrite ?set_state_current.

(** ** The state machine *)

(** X12: the successors of each state in one [state_step]: [IDLE] goes to
    [TLE_UPDATE] or [GETTING_GPS_FIX]; [TLE_UPDATE] to [GETTING_GPS_FIX];
    [GETTING_GPS_FIX] to [STEP1] or [IDLE]; [STEP1] to [STEP2],
    [SENDING_DATA] or [ERROR]; [STEP2] to [STEP1] or [SENDING_DATA];
    [SENDING_DATA] to [IDLE]; [ERROR] to [RECOVERY]; the [default] branch
    ([INIT]) to [IDLE]; and, when the recorded last good state is neither
    [ERROR] nor [RECOVERY], [RECOVERY] never leads to one of those two. *)
Theorem state_step_successors (e : env) (s : app_state) (w : world) :
  lgs_ok w ->
  let s' := current_state (snd (state_step e s w)) in
  match s with
  | STATE_IDLE => s' = STATE_TLE_UPDATE \/ s' = STATE_GETTING_GPS_FIX
  | STATE_TLE_UPDATE => s' = STATE_GETTING_GPS_FIX
  | STATE_GETTING_GPS_FIX => s' = STATE_ATTEMPTING_CONNECTION_STEP1 \/ s' = STATE_IDLE
  | STATE_ATTEMPTING_CONNECTION_STEP1 =>
      s' = STATE_ATTEMPTING_CONNECTION_STEP2 \/ s' = STATE_SENDING_DATA \/ s' = STATE_ERROR
  | STATE_ATTEMPTING_CONNECTION_STEP2 =>
      s' = STATE_ATTEMPTING_CONNECTION_STEP1 \/ s' = STATE_SENDING_DATA
  | STATE_SENDING_DATA => s' = STATE_IDLE
  | STATE_ERROR => s' = STATE_RECOVERY
  | STATE_RECOVERY => is_error_or_recovery s' = false
  | STATE_INIT => s' = STATE_IDLE
  end.
Proof.
  intros Hw s'. subst s'.
  destruct s; cbn [state_step].
  - apply set_state_current.
  - refine (wp_elim (case_getting_gps_fix e) (fun _ w' =>
      current_state w' = STATE_ATTEMPTING_CONNECTION_STEP1 \/ current_state w' = STATE_IDLE) w _).
    unfold case_getting_gps_fix; unfold_prims. wp_to_final_state; tauto.
  - refine (wp_elim (case_idle e) (fun _ w' =>
      current_state w' = STATE_TLE_UPDATE \/ current_state w' = STATE_GETTING_GPS_FIX) w _).
    unfold case_idle; unfold_prims. wp_to_final_state; tauto.
  - refine (wp_elim (case_step1 e) (fun _ w' =>
      current_state w' = STATE_ATTEMPTING_CONNECTION_STEP2 \/
      current_state w' = STATE_SENDING_DATA \/ current_state w' = STATE_ERROR) w _).
    unfold case_step1; unfold_prims. wp_to_final_state; tauto.
  - refine (wp_elim (case_step2 e) (fun _ w' =>
      current_state w' = STATE_ATTEMPTING_CONNECTION_STEP1 \/
      current_state w' = STATE_SENDING_DATA) w _).
    unfold case_step2; unfold_prims. wp_to_final_state; tauto.
  - refine (wp_elim (case_sending_data e) (fun _ w' => current_state w' = STATE_IDLE) w _).
    unfold case_sending_data; unfold_prims. wp_to_final_state; reflexivity.
  - apply set_state_current.
  - refine (wp_elim (case_recovery e) (fun _ w' =>
      is_error_or_recovery (current_state w') = false) w _).
    unfold case_recovery; unfold_prims. wp_step. wp_step. wp_step.
    apply wp_call_i.
    pose proof (keeps_attempt_error_recovery e (last_good_state (recovery (config w))) w Hw) as Hk.
    destruct (attempt_error_recovery e _ w) as [err w1]. cbn [fst snd] in *.
    wp_to_final_state; try reflexivity.
    exact Hk.
  - refine (wp_elim case_tle_update (fun _ w' => current_state w' = STATE_GETTING_GPS_FIX) w _).
    unfold case_tle_update; unfold_prims. wp_to_final_state; reflexivity.
Qed.

(** ** Invariants of the main loop *)

Definition preserves (I : world -> Prop) {A} (m : M A) : Prop :=
  forall w, I w -> I (snd (m w)).

Section Preserves.
Variable I : world -> Prop.

Lemma pres_ret {A} (a : A) : preserves I (ret a).
Proof. intros w Hw. exact Hw. Qed.

Lemma pres_bind {A B} (m : M A) (k : A -> M B) :
  preserves I m -> (forall a, preserves I (k a)) -> preserves I (bind m k).
Proof.
  intros Hm Hk w Hw. unfold bind. specialize (Hm w Hw).
  destruct (m w) as [a w']. exact (Hk a w' Hm).
Qed.

Lemma pres_gets {A} (f : world -> A) : preserves I (gets f).
Proof. intros w Hw. exact Hw. Qed.

Lemma pres_modify f : (forall w, I w -> I (f w)) -> preserves I (modify f).
Proof. intros Hf w Hw. exact (Hf w Hw). Qed.

Lemma pres_clock : (forall w, I w -> I (push EvClock w)) -> preserves I k_uptime_get.
Proof. intros Hf w Hw. exact (Hf w Hw). Qed.

Lemma pres_configure e :
  (forall w tr, I w -> I (with_trace tr w)) -> preserves I (configure_nordic_for_sateliot e).
Proof. intros Hf w Hw. rewrite configure_frame. exact (Hf _ _ Hw). Qed.

Lemma pres_robust_send e :
  (forall w t tr, I w -> I (with_uptime t (with_trace tr w))) ->
  preserves I (robust_data_send e).
Proof. intros Hf w Hw. rewrite robust_data_send_frame. exact (Hf _ _ _ Hw). Qed.

Lemma pres_run_all {A} (h : A -> M unit) (l : list A) :
  (forall x, preserves I (h x)) -> preserves I (run_all h l).
Proof.
  intros Hh. induction l as [|x l IH]; cbn.
  - apply pres_ret.
  - apply pres_bind; [apply Hh|intros _; exact IH].
Qed.

End Preserves.

(** Symbolic preservation proof; [special] handles the calls proved
    separately, [side] the world updates. *)
Ltac pres_solve special side :=
  repeat (cbv beta iota zeta;
    first
    [ special
    | match goal with
      | |- preserves _ (bind _ _) => apply pres_bind; [|intros ?]
      | |- preserves _ (ret _) => apply pres_ret
      | |- preserves _ (gets _) => apply pres_gets
      | |- preserves _ k_uptime_get => apply pres_clock; intros ?w ?Hw; side
      | |- preserves _ (modify _) => apply pres_modify; intros ?w ?Hw; side
      | |- preserves _ (configure_nordic_for_sateliot _) =>
          apply pres_configure; intros ?w ?tr ?Hw; side
      | |- preserves _ (robust_data_send _) =>
          apply pres_robust_send; intros ?w ?t ?tr ?Hw; side
      | |- preserves _ (run_all _ _) => apply pres_run_all; intros ?
      | |- preserves _ (if ?b then _ else _) => destruct b eqn:?
      | |- preserves _ (match ?x with _ => _ end) =>
          lazymatch x with
          | match ?y with _ => _ end => destruct y
          | _ => destruct x
          end
      end ]).

Ltac unfold_loop :=
  unfold loop_iteration, state_step, case_idle, case_tle_update,
    case_getting_gps_fix, case_step1, case_step2, case_sending_data,
    case_recovery, set_state, initialize_sateliot_config,
    update_sateliot_tles, calculate_sateliot_satellite_pass,
    format_telemetry_data, modem_configure_for_sateliot_attachment,
    lte_handler, gnss_event_handler, update_device_coordinates, give_lte, give_gps,
    k_sem_give, k_sleep, advance, wdt_feed, lte_lc_offline,
    lte_lc_connect_async, at_printf, emit, skip, get_config, update_config.

(** Semaphore counts. *)
Definition sem_inv (w : world) : Prop :=
  0 <= lte_connected_sem w <= 1 /\ 0 <= gps_fix_sem w <= 1.

Ltac sem_side :=
  unfold sem_inv in *; cbn in *;
  repeat (match goal with |- context [if ?b then _ else _] => destruct b eqn:? end; cbn);
  rewrite ?Z.ltb_lt, ?Z.ltb_ge in *; lia.

Lemma sem_take_lte e T : preserves sem_inv (take_lte e T).
Proof.
  intros w Hw.
  unfold take_lte, k_sem_take, lte_registration, lte_handler, give_lte, k_sem_give,
    bind, gets, modify, emit, advance, ret, update_config.
  destruct (0 <? lte_connected_sem w) eqn:E; [sem_side|].
  destruct (registration_signal e) as [t|]; [|sem_side].
  destruct ((0 <=? t) && (t <? T)); sem_side.
Qed.

Lemma sem_take_gps e T : preserves sem_inv (k_sem_take gps_fix_sem with_gps_sem T (gnss_arrival e)).
Proof.
  intros w Hw.
  unfold k_sem_take, gnss_arrival, gnss_event_handler, update_device_coordinates,
    give_gps, k_sem_give, bind, gets, modify, emit, advance, ret, update_config.
  destruct (0 <? gps_fix_sem w) eqn:E; [sem_side|].
  destruct (gnss_signal e) as [[t f]|]; [|sem_side].
  destruct ((0 <=? t) && (t <? T)); sem_side.
Qed.

Ltac sem_special :=
  lazymatch goal with
  | |- preserves _ (take_lte _ _) => apply sem_take_lte
  | |- preserves _ (k_sem_take gps_fix_sem with_gps_sem _ _) => apply sem_take_gps
  end.

Lemma sem_loop_iteration e : preserves sem_inv (loop_iteration e).
Proof.
  unfold_loop. unfold attempt_error_recovery. unfold_loop.
  pres_solve ltac:(idtac; sem_special) ltac:(idtac; sem_side).
Qed.

Lemma sem_main_prologue a b c w :
  main_prologue a b c initial_world = (true, w) -> sem_inv w.
Proof.
  unfold main_prologue, initialize_sateliot_config, set_state; unfold_prims.
  unfold bind, gets, modify, ret.
  destruct (a =? 0), (b =? 0), (c =? 0); intros H; vm_compute in H; try discriminate H;
    injection H as <-; unfold sem_inv; cbn; lia.
Qed.

(** Recovery attempt counter. *)
Definition attempts_inv (w : world) : Prop :=
  0 <= recovery_attempts (recovery (config w)) /\
  recovery_attempts (recovery (config w)) + 1 <= MAX_ERROR_RECOVERY_ATTEMPTS.

Ltac attempts_side :=
  unfold attempts_inv, MAX_ERROR_RECOVERY_ATTEMPTS in *; cbn in *;
  repeat (match goal with |- context [if ?b then _ else _] => destruct b eqn:? end; cbn);
  lia.

Lemma attempts_attempt_error_recovery e s :
  preserves attempts_inv (attempt_error_recovery e s).
Proof.
  intros w Hw. unfold attempts_inv, MAX_ERROR_RECOVERY_ATTEMPTS in *.
  rewrite recovery_attempts_after. cbv zeta.
  destruct (recovery_attempts (recovery (config w)) + 1 =? 1), (recovery_attempts (recovery (config w)) + 1 =? 2); lia.
Qed.

Ltac attempts_special :=
  lazymatch goal with
  | |- preserves _ (attempt_error_recovery _ _) => apply attempts_attempt_error_recovery
  end.

Lemma attempts_loop_iteration e : preserves attempts_inv (loop_iteration e).
Proof.
  unfold_loop. unfold take_lte, k_sem_take, lte_registration, gnss_arrival. unfold_loop.
  pres_solve ltac:(idtac; attempts_special) ltac:(idtac; attempts_side).
Qed.

Lemma attempts_main_prologue a b c w :
  main_prologue a b c initial_world = (true, w) -> attempts_inv w.
Proof.
  unfold main_prologue, initialize_sateliot_config, set_state; unfold_prims.
  unfold bind, gets, modify, ret.
  destruct (a =? 0), (b =? 0), (c =? 0); intros H; vm_compute in H; try discriminate H;
    injection H as <-; unfold attempts_inv, MAX_ERROR_RECOVERY_ATTEMPTS; cbn; lia.
Qed.

(** TLE refresh interval. *)
Definition interval_inv (w : world) : Prop :=
  update_interval_hours (tle_config (config w)) = TLE_UPDATE_INTERVAL_HOURS \/
  update_interval_hours (tle_config (config w)) = TLE_UPDATE_INTERVAL_HOURS * 2.

Ltac interval_side :=
  unfold interval_inv, TLE_UPDATE_INTERVAL_HOURS in *; cbn in *;
  repeat (match goal with |- context [if ?b then _ else _] => destruct b eqn:? end; cbn);
  lia.

Lemma interval_loop_iteration e : preserves interval_inv (loop_iteration e).
Proof.
  unfold_loop. unfold attempt_error_recovery, take_lte, k_sem_take, lte_registration,
    gnss_arrival. unfold_loop.
  pres_solve ltac:(fail) ltac:(idtac; interval_side).
Qed.

Lemma interval_main_prologue a b c w :
  main_prologue a b c initial_world = (true, w) -> interval_inv w.
Proof.
  unfold main_prologue, initialize_sateliot_config, set_state; unfold_prims.
  unfold bind, gets, modify, ret.
  destruct (a =? 0), (b =? 0), (c =? 0); intros H; vm_compute in H; try discriminate H;
    injection H as <-; unfold interval_inv, TLE_UPDATE_INTERVAL_HOURS; cbn; lia.
Qed.

(** X13: in every world the main loop reaches, both semaphore counts are
    0 or 1. *)
Theorem reachable_semaphores_binary (w : world) :
  reachable w ->
  0 <= lte_connected_sem w <= 1 /\ 0 <= gps_fix_sem w <= 1.
Proof.
  intros Hr. change (sem_inv w).
  induction Hr as [a b c w Hb|e w _ IH].
  - exact (sem_main_prologue a b c w Hb).
  - exact (sem_loop_iteration e w IH).
Qed.

(** X14: in every world the main loop reaches, the recovery attempt
    counter is non-negative and one increment keeps it within
    [MAX_ERROR_RECOVERY_ATTEMPTS]: the capping branch of
    [attempt_error_recovery] ([-EFAULT], counter reset) cannot run. *)
Theorem reachable_recovery_below_cap (w : world) :
  reachable w ->
  0 <= recovery_attempts (recovery (config w)) /\
  recovery_attempts (recovery (config w)) + 1 <= MAX_ERROR_RECOVERY_ATTEMPTS.
Proof.
  intros Hr. change (attempts_inv w).
  induction Hr as [a b c w Hb|e w _ IH].
  - exact (attempts_main_prologue a b c w Hb).
  - exact (attempts_loop_iteration e w IH).
Qed.

(** X15: in every world the main loop reaches, the TLE refresh interval is
    the nominal 24 hours or its doubled 48 hours. *)
Theorem reachable_tle_interval (w : world) :
  reachable w ->
  update_interval_hours (tle_config (config w)) = TLE_UPDATE_INTERVAL_HOURS \/
  update_interval_hours (tle_config (config w)) = TLE_UPDATE_INTERVAL_HOURS * 2.
Proof.
  intros Hr. change (interval_inv w).
  induction Hr as [a b c w Hb|e w _ IH].
  - exact (interval_main_prologue a b c w Hb).
  - exact (interval_loop_iteration e w IH).
Qed.

Lemma state_step_successors_witness :
  lgs_ok (with_current_state STATE_RECOVERY initial_world) /\
  is_error_or_recovery (current_state (snd (state_step (sample_env (0, 0, 0)) STATE_RECOVERY
    (with_current_state STATE_RECOVERY initial_world)))) = false.
Proof.
  split; [reflexivity|].
  exact (state_step_successors (sample_env (0, 0, 0)) STATE_RECOVERY
           (with_current_state STATE_RECOVERY initial_world) eq_refl).
Defined.

(** The world after boot and one pass of the loop. *)
Definition booted_world : world := snd (main_prologue 0 0 0 initial_world).
Definition second_pass_world : world := snd (loop_iteration (sample_env (0, 0, 0)) booted_world).

Lemma reachable_semaphores_binary_witness :
  reachable second_pass_world /\
  0 <= lte_connected_sem second_pass_world <= 1 /\ 0 <= gps_fix_sem second_pass_world <= 1.
Proof.
  assert (Hr : reachable second_pass_world)
    by (apply reach_loop; apply (reach_boot 0 0 0); vm_compute; reflexivity).
  split; [exact Hr|]. exact (reachable_semaphores_binary second_pass_world Hr).
Defined.

Lemma reachable_recovery_below_cap_witness :
  reachable second_pass_world /\
  0 <= recovery_attempts (recovery (config second_pass_world)) /\
  recovery_attempts (recovery (config second_pass_world)) + 1 <= MAX_ERROR_RECOVERY_ATTEMPTS.
Proof.
  assert (Hr : reachable second_pass_world)
    by (apply reach_loop; apply (reach_boot 0 0 0); vm_compute; reflexivity).
  split; [exact Hr|]. exact (reachable_recovery_below_cap second_pass_world Hr).
Defined.

Lemma reachable_tle_interval_witness :
  reachable second_pass_world /\
  (update_interval_hours (tle_config (config second_pass_world)) = TLE_UPDATE_INTERVAL_HOURS \/
   update_interval_hours (tle_config (config second_pass_world)) = TLE_UPDATE_INTERVAL_HOURS * 2).
Proof.
  assert (Hr : reachable second_pass_world)
    by (apply reach_loop; apply (reach_boot 0 0 0); vm_compute; reflexivity).
  split; [exact Hr|]. exact (reachable_tle_interval second_pass_world Hr).
Defined.

(** ** Watchdog feeds and pass duration *)

(** [m] moves the clock forward by [lo] to [hi] ms and feeds no watchdog. *)
Definition quiet (lo hi : Z) {A} (m : M A) : Prop :=
  forall w, uptime w + lo <= uptime (snd (m w)) <= uptime w + hi /\
            feeds (trace (snd (m w))) = feeds (trace w).

Lemma wp_quiet_i {A} lo hi (m : M A) Q w :
  quiet lo hi m ->
  (forall a w1, uptime w + lo <= uptime w1 <= uptime w + hi ->
                feeds (trace w1) = feeds (trace w) -> Q a w1) ->
  wp m Q w.
Proof. intros Hm H. destruct (Hm w) as [H1 H2]. exact (H _ _ H1 H2). Qed.

Lemma feeds_cons (ev : event) (l : list event) :
  feeds (ev :: l) = ((if is_feed ev then 1 else 0) + feeds l)%nat.
Proof. unfold feeds; cbn. destruct (is_feed ev); reflexivity. Qed.

Ltac qlia := unfold feeds in *; cbn in *; lia.

Lemma quiet_set_state s : quiet 0 0 (set_state s).
Proof.
  intros w. rewrite set_state_eq. cbn [snd].
  destruct (app_state_eqb s (current_state w)); [qlia|].
  destruct (is_error_or_recovery (current_state w)); qlia.
Qed.

Lemma quiet_configure e : quiet 0 0 (configure_nordic_for_sateliot e).
Proof.
  intros w. split.
  - rewrite configure_frame. cbn. lia.
  - destruct w; unfold configure_nordic_for_sateliot, check, at_printf, bind, emit,
      modify, get_config, gets, ret; cbn.
    split_ifs; reflexivity.
Qed.

Lemma quiet_modem e : quiet 0 0 (modem_configure_for_sateliot_attachment e).
Proof.
  intros w. unfold modem_configure_for_sateliot_attachment, get_config,
    at_printf, bind, gets, emit, modify, skip, ret.
  destruct (gps_coordinates_valid (config w)); qlia.
Qed.

Lemma quiet_robust_send e : quiet 0 45000 (robust_data_send e).
Proof.
  intros w. destruct w. unfold robust_data_send. cbn [send_loop].
  unfold k_sleep, advance, emit, modify, bind, ret; cbn.
  repeat (match goal with
          | |- context [send_outcome_at e ?k] => destruct (send_outcome_at e k)
          end; cbn);
    lia.
Qed.

Lemma quiet_calculate e p lat lon : quiet 0 0 (calculate_sateliot_satellite_pass e p lat lon).
Proof.
  intros w. unfold calculate_sateliot_satellite_pass, get_config, gets, bind, ret, k_uptime_get.
  destruct p; [|qlia].
  destruct (negb _); cbn; [qlia|].
  destruct (rand_values e) as [[r1 r2] r3]; qlia.
Qed.

Lemma quiet_update_tles : quiet 0 0 update_sateliot_tles.
Proof.
  intros w. rewrite update_sateliot_tles_eq. cbv zeta.
  destruct (_ && _); qlia.
Qed.

Lemma quiet_format e b n : quiet 0 0 (format_telemetry_data e b n).
Proof.
  intros w. unfold format_telemetry_data, bind, k_uptime_get, get_config, gets, ret.
  destruct b; [|qlia].
  split_ifs; qlia.
Qed.

Lemma quiet_initialize : quiet 0 0 initialize_sateliot_config.
Proof.
  intros w. unfold initialize_sateliot_config, get_config, update_config, bind, gets,
    modify, ret. qlia.
Qed.

Lemma quiet_take_lte e T : 0 <= T -> quiet 0 T (take_lte e T).
Proof.
  intros HT w.
  unfold take_lte, k_sem_take, lte_registration, lte_handler, give_lte, k_sem_give,
    bind, gets, modify, emit, advance, ret, update_config.
  destruct (0 <? lte_connected_sem w); [qlia|].
  destruct (registration_signal e) as [t|]; [|qlia].
  destruct ((0 <=? t) && (t <? T)) eqn:Ht; [|qlia].
  apply andb_true_iff in Ht as [H1 H2]. apply Z.leb_le in H1. apply Z.ltb_lt in H2.
  cbn. destruct (0 <? _); qlia.
Qed.

Lemma quiet_take_gps e T : 0 <= T -> quiet 0 T (k_sem_take gps_fix_sem with_gps_sem T (gnss_arrival e)).
Proof.
  intros HT w.
  unfold k_sem_take, gnss_arrival, gnss_event_handler, update_device_coordinates,
    give_gps, k_sem_give, bind, gets, modify, emit, advance, ret, update_config.
  destruct (0 <? gps_fix_sem w); [qlia|].
  destruct (gnss_signal e) as [[t f]|]; [|qlia].
  destruct ((0 <=? t) && (t <? T)) eqn:Ht; [|qlia].
  apply andb_true_iff in Ht as [H1 H2]. apply Z.leb_le in H1. apply Z.ltb_lt in H2.
  cbn. destruct (0 <? _); qlia.
Qed.

Lemma quiet_run_all {A} (h : A -> M unit) (l : list A) :
  (forall x, quiet 0 0 (h x)) -> quiet 0 0 (run_all h l).
Proof.
  intros Hh. induction l as [|x l IH]; cbn.
  - intros w. qlia.
  - intros w. unfold bind. destruct (Hh x w) as [H1 H2].
    destruct (h x w) as [u w1]. destruct (IH w1) as [H3 H4]. qlia.
Qed.

Lemma quiet_lte_handler evt : quiet 0 0 (lte_handler evt).
Proof.
  intros w. unfold lte_handler, give_lte, k_sem_give, update_config, bind, modify, skip, ret.
  destruct evt as [[]| |]; qlia.
Qed.

Lemma quiet_gnss_handler f : quiet 0 0 (gnss_event_handler f).
Proof.
  intros w. unfold gnss_event_handler, update_device_coordinates, give_gps, k_sem_give,
    update_config, bind, gets, modify, ret, skip.
  destruct f as [err v d|]; [|qlia].
  destruct (err =? 0); cbn; [destruct v; cbn|]; qlia.
Qed.

(** Symbolic execution that tracks the clock and the watchdog feeds. *)
(** Extended below once [attempt_error_recovery] is covered. *)
Ltac quiet_call_more := fail.

Ltac quiet_call :=
  first [ apply quiet_set_state | apply quiet_configure | apply quiet_modem
        | apply quiet_robust_send | apply quiet_calculate | apply quiet_update_tles
        | apply quiet_format | apply quiet_initialize | quiet_call_more
        | apply quiet_take_lte; lia | apply quiet_take_gps; lia
        | apply quiet_run_all; first [apply quiet_lte_handler | apply quiet_gnss_handler] ].

Ltac wp_quiet :=
  repeat (first
    [ wp_step
    | wp_if_eval
    | progress cbv beta iota zeta
    | lazymatch goal with
      | |- wp (if ?b then _ else _) _ _ => destruct b eqn:?
      | |- wp (match ?x with _ => _ end) _ _ => destruct x eqn:?
      | |- wp ?m _ _ => eapply (wp_quiet_i _ _ m); [quiet_call|intros ?a ?w ?Ht ?Hf]
      end ]).

Ltac quiet_finish :=
  wsimpl; repeat match goal with H : _ |- _ => progress wsimpl_in H end;
  unfold feeds in *; cbn [filter is_feed List.length] in *;
  rewrite ?Z.ltb_lt, ?Z.ltb_ge, ?Z.eqb_eq, ?Z.eqb_neq in *; lia.

Lemma quiet_attempt e s : quiet 0 10000 (attempt_error_recovery e s).
Proof.
  intros w.
  refine (wp_elim (attempt_error_recovery e s) (fun _ w' =>
    uptime w + 0 <= uptime w' <= uptime w + 10000 /\ feeds (trace w') = feeds (trace w)) w _).
  unfold attempt_error_recovery; unfold lte_lc_offline, k_sleep, advance, at_printf, emit,
    get_config, update_config.
  wp_quiet; quiet_finish.
Qed.

Ltac quiet_call_more ::= apply quiet_attempt.

(** X16: every pass of the main loop, whatever the state, feeds the
    watchdog exactly once and moves the clock forward by at least the
    closing 500 ms sleep and at most 30 minutes (the longest [IDLE] sleep)
    plus those 500 ms: every wait in a state is bounded. *)
Theorem loop_pass_feeds_once (e : env) (w : world) :
  let w' := snd (loop_iteration e w) in
  feeds (trace w') = S (feeds (trace w)) /\
  uptime w + 500 <= uptime w' <= uptime w + 30 * 60 * 1000 + 500.
Proof.
  cbv zeta.
  refine (wp_elim (loop_iteration e) (fun _ w' =>
    feeds (trace w') = S (feeds (trace w)) /\
    uptime w + 500 <= uptime w' <= uptime w + 30 * 60 * 1000 + 500) w _).
  unfold loop_iteration, wdt_feed, k_sleep, advance, emit.
  wp_quiet.
  match goal with |- wp (state_step e (current_state ?w1)) _ _ => destruct (current_state w1) end;
    unfold state_step, case_idle, case_tle_update, case_getting_gps_fix, case_step1, case_step2,
      case_sending_data, case_recovery, k_sleep, advance, emit, lte_lc_offline,
      lte_lc_connect_async, get_config, update_config, skip;
    wp_quiet; quiet_finish.
Qed.

(** ** The [IDLE] state *)

Lemma predict_pass_start_ahead (current_time : Z) (lat : Q) (r1 r2 r3 : Z) :
  0 <= current_time ->
  current_time < start_time (predict_pass current_time lat r1 r2 r3).
Proof.
  intros Hc. unfold predict_pass. cbv zeta. cbn [start_time].
  unfold DAY_MS. rewrite Z.rem_mod_nonneg by lia.
  pose proof (Z.mod_pos_bound current_time (24 * 60 * 60 * 1000) ltac:(lia)) as Hb.
  destruct (_ <? 10 * 60 * 60 * 1000) eqn:E1;
    [|destruct (_ <? 21 * 60 * 60 * 1000) eqn:E2];
    rewrite ?Z.ltb_lt, ?Z.ltb_ge in *; lia.
Qed.

(** X17: in [IDLE], with fresh ephemerides (no forced update and the
    refresh interval not yet elapsed) and valid coordinates, the loop
    stores the newly predicted pass, sleeps until its start, capped at 30
    minutes, and moves on to [GETTING_GPS_FIX]; the predicted start always
    lies ahead of the clock, so the sleep is never skipped. *)
Theorem idle_sleeps_until_pass (e : env) (w : world) :
  update_needed (tle_config (config w)) = false ->
  uptime w - last_update_time (tle_config (config w)) <=
    update_interval_hours (tle_config (config w)) * 60 * 60 * 1000 ->
  gps_coordinates_valid (config w) = true ->
  0 <= uptime w ->
  let '(r1, r2, r3) := rand_values e in
  let p := predict_pass (uptime w) (device_lat (config w)) r1 r2 r3 in
  let w' := snd (case_idle e w) in
  next_pass w' = p /\
  uptime w < start_time p /\
  uptime w' = uptime w + Z.min (start_time p - uptime w) (30 * 60 * 1000) /\
  current_state w' = STATE_GETTING_GPS_FIX.
Proof.
  intros Hn Hi Hv Hu.
  destruct (rand_values e) as [[r1 r2] r3] eqn:Hr. cbv zeta.
  pose proof (predict_pass_start_ahead (uptime w) (device_lat (config w)) r1 r2 r3 Hu) as Ha.
  refine (wp_elim (case_idle e) (fun _ w' =>
    next_pass w' = predict_pass (uptime w) (device_lat (config w)) r1 r2 r3 /\
    uptime w < start_time (predict_pass (uptime w) (device_lat (config w)) r1 r2 r3) /\
    uptime w' = uptime w + Z.min (start_time (predict_pass (uptime w) (device_lat (config w)) r1 r2 r3)
                                   - uptime w) (30 * 60 * 1000) /\
    current_state w' = STATE_GETTING_GPS_FIX) w _).
  unfold case_idle, calculate_sateliot_satellite_pass, CURRENT_INTEGRATION_PHASE; unfold_prims.
  wp_auto. wsimpl. rewrite Hn. wp_auto. wsimpl.
  rewrite (proj2 (Z.ltb_ge _ _)) by lia. wp_auto. wsimpl. rewrite Hv. wp_auto. wsimpl.
  rewrite Hv. wp_auto. rewrite Hr. wp_auto. wsimpl.
  remember (predict_pass (uptime w) (device_lat (config w)) r1 r2 r3) as p eqn:Hp.
  clear Hp. wp_auto. wsimpl.
  rewrite (proj2 (Z.ltb_lt _ _)) by lia. wp_auto.
  apply wp_set_state_i. rewrite set_state_eq. wsimpl.
  destruct (app_state_eqb STATE_GETTING_GPS_FIX (current_state w)) eqn:E;
    [|destruct (is_error_or_recovery (current_state w))]; wsimpl;
    (split; [reflexivity|split; [exact Ha|split; [reflexivity|]]]); auto.
  unfold app_state_eqb in E.
  destruct (app_state_eq_dec STATE_GETTING_GPS_FIX (current_state w)); congruence.
Qed.

Definition idle_world : world :=
  with_current_state STATE_IDLE
    (map_config (with_coordinates 41 2 100)
       (snd (loop_iteration (sample_env (0, 0, 0)) second_pass_world))).

Lemma idle_sleeps_until_pass_witness :
  update_needed (tle_config (config idle_world)) = false /\
  uptime idle_world - last_update_time (tle_config (config idle_world)) <=
    update_interval_hours (tle_config (config idle_world)) * 60 * 60 * 1000 /\
  gps_coordinates_valid (config idle_world) = true /\
  0 <= uptime idle_world /\
  (let '(r1, r2, r3) := rand_values (sample_env (7, 11, 13)) in
   let p := predict_pass (uptime idle_world) (device_lat (config idle_world)) r1 r2 r3 in
   let w' := snd (case_idle (sample_env (7, 11, 13)) idle_world) in
   next_pass w' = p /\
   uptime idle_world < start_time p /\
   uptime w' = uptime idle_world + Z.min (start_time p - uptime idle_world) (30 * 60 * 1000) /\
   current_state w' = STATE_GETTING_GPS_FIX).
Proof.
  assert (Hn : update_needed (tle_config (config idle_world)) = false) by (vm_compute; reflexivity).
  assert (Hi : uptime idle_world - last_update_time (tle_config (config idle_world)) <=
    update_interval_hours (tle_config (config idle_world)) * 60 * 60 * 1000)
    by (vm_compute; discriminate).
  assert (Hv : gps_coordinates_valid (config idle_world) = true) by (vm_compute; reflexivity).
  assert (Hu : 0 <= uptime idle_world) by (vm_compute; discriminate).
  split; [exact Hn|split; [exact Hi|split; [exact Hv|split; [exact Hu|]]]].
  exact (idle_sleeps_until_pass (sample_env (7, 11, 13)) idle_world Hn Hi Hv Hu).
Defined.

(** ** Recovery, boot and background events *)

Lemma set_state_attempts (s : app_state) (w : world) :
  recovery_attempts (recovery (config (snd (set_state s w)))) =
    recovery_attempts (recovery (config w)).
Proof.
  rewrite set_state_eq. cbn [snd].
  destruct (app_state_eqb s (current_state w)), (is_error_or_recovery (current_state w));
    reflexivity.
Qed.

(** X18: a pass in [RECOVERY] ends either in the last good state read
    before the attempt or in [IDLE].  A first attempt (counter 0) always
    resumes the last good state and leaves the counter at 1; from a counter
    other than 0 and 1 (the level-3 reset or the cap) the machine always
    goes to [IDLE] with the counter back at 0, since level 3 resets the last
    good state to [IDLE] before it is read again. *)
Theorem recovery_resume_target (e : env) (w : world) :
  let a := recovery_attempts (recovery (config w)) in
  let lgs := last_good_state (recovery (config w)) in
  let w' := snd (case_recovery e w) in
  (current_state w' = lgs \/ current_state w' = STATE_IDLE) /\
  (a = 0 -> current_state w' = lgs /\ recovery_attempts (recovery (config w')) = 1) /\
  (a <> 0 -> a <> 1 -> current_state w' = STATE_IDLE /\ recovery_attempts (recovery (config w')) = 0).
Proof.
  cbv zeta.
  set (a := recovery_attempts (recovery (config w))).
  set (lgs := last_good_state (recovery (config w))).
  refine (wp_elim (case_recovery e) (fun _ w' =>
    (current_state w' = lgs \/ current_state w' = STATE_IDLE) /\
    (a = 0 -> current_state w' = lgs /\ recovery_attempts (recovery (config w')) = 1) /\
    (a <> 0 -> a <> 1 -> current_state w' = STATE_IDLE /\ recovery_attempts (recovery (config w')) = 0)) w _).
  unfold case_recovery, attempt_error_recovery, initialize_sateliot_config; unfold_prims.
  wp_auto. wsimpl. fold a lgs.
  destruct (MAX_ERROR_RECOVERY_ATTEMPTS <? a + 1) eqn:H1;
    [|destruct (a + 1 =? 1) eqn:H2; [|destruct (a + 1 =? 2) eqn:H3]]; wp_auto.
  all: try (eapply (wp_configure_i e _); [reflexivity|intros ?tr]).
  all: wp_auto; wsimpl.
  all: repeat match goal with
       | |- context [fst (configure_nordic_for_sateliot ?e ?w) =? ?c] =>
           destruct (fst (configure_nordic_for_sateliot e w) =? c)
       end; wp_auto.
  all: apply wp_set_state_i; rewrite set_state_current, set_state_attempts; wsimpl.
  all: unfold MAX_ERROR_RECOVERY_ATTEMPTS in *;
       rewrite ?Z.ltb_lt, ?Z.ltb_ge, ?Z.eqb_eq, ?Z.eqb_neq in *.
  all: split; [first [left; reflexivity|right; reflexivity]|];
       split; intros; (split; [first [reflexivity|exfalso; lia]|first [lia|exfalso; lia]]).
Qed.

Definition is_registration (evt : lte_lc_evt) : bool :=
  match evt with
  | LTE_LC_EVT_NW_REG_STATUS LTE_LC_NW_REG_REGISTERED_HOME
  | LTE_LC_EVT_NW_REG_STATUS LTE_LC_NW_REG_REGISTERED_ROAMING => true
  | _ => false
  end.

(** X19: for a non-negative semaphore count, the LTE events delivered
    before a pass act as a whole like a single registration when at least
    one of them reports registration (home or roaming), whatever their
    order and number: attach complete, recovery counter 0 and the
    semaphore saturated at 1; otherwise they change nothing. *)
Theorem lte_batch_absorbed (l : list lte_lc_evt) (w : world) :
  0 <= lte_connected_sem w ->
  snd (run_all lte_handler l w) =
    if existsb is_registration l
    then with_lte_sem 1
           (map_config (map_recovery (with_attempts 0))
              (with_attachment_step ATTACH_COMPLETE w))
    else w.
Proof.
  revert w. induction l as [|evt l IH]; intros w Hs; [reflexivity|].
  cbn [run_all existsb]. unfold bind at 1.
  assert (Hh : snd (lte_handler evt w) =
    if is_registration evt
    then with_lte_sem 1 (map_config (map_recovery (with_attempts 0))
                           (with_attachment_step ATTACH_COMPLETE w))
    else w).
  { unfold lte_handler, give_lte, k_sem_give, update_config, modify, skip, ret, bind.
    destruct evt as [[]| |]; cbn; try reflexivity;
      rewrite Z.min_r by lia; reflexivity. }
  destruct (lte_handler evt w) as [u w1]. cbn [snd] in Hh.
  destruct (is_registration evt); cbn [orb]; subst w1.
  - rewrite IH by (cbn; lia).
    destruct (existsb is_registration l); destruct w; reflexivity.
  - apply IH; exact Hs.
Qed.

Lemma lte_batch_absorbed_witness :
  0 <= lte_connected_sem initial_world /\
  snd (run_all lte_handler
         [LTE_LC_EVT_CELL_UPDATE; LTE_LC_EVT_NW_REG_STATUS LTE_LC_NW_REG_REGISTERED_HOME;
          LTE_LC_EVT_NW_REG_STATUS LTE_LC_NW_REG_REGISTERED_ROAMING] initial_world) =
    with_lte_sem 1 (map_config (map_recovery (with_attempts 0))
                      (with_attachment_step ATTACH_COMPLETE initial_world)).
Proof.
  split; [vm_compute; discriminate|].
  exact (lte_batch_absorbed
           [LTE_LC_EVT_CELL_UPDATE; LTE_LC_EVT_NW_REG_STATUS LTE_LC_NW_REG_REGISTERED_HOME;
            LTE_LC_EVT_NW_REG_STATUS LTE_LC_NW_REG_REGISTERED_ROAMING] initial_world
           ltac:(vm_compute; discriminate)).
Defined.

(** X20: the boot prologue enters the loop exactly when the watchdog was
    set up; otherwise it parks in [k_sleep(K_FOREVER)] still in [INIT].
    When it enters the loop it is in [IDLE] with last good state [INIT]
    (the [INIT -> IDLE] transition records it), and a failed LTE or GNSS
    initialisation only leaves a transient [ERROR] in the log, overwritten
    by the final [set_state(STATE_IDLE)]. *)
Theorem boot_prologue_outcome (wdt_err lte_err gnss_err : Z) :
  let (ok, w') := main_prologue wdt_err lte_err gnss_err initial_world in
  ok = (wdt_err =? 0) /\
  recovery_attempts (recovery (config w')) = 0 /\
  (wdt_err <> 0 ->
   current_state w' = STATE_INIT /\
   last_good_state (recovery (config w')) = STATE_IDLE /\
   trace w' = [EvSleepForever]) /\
  (wdt_err = 0 ->
   current_state w' = STATE_IDLE /\
   last_good_state (recovery (config w')) = STATE_INIT /\
   trace w' = if (lte_err =? 0) && (gnss_err =? 0)
              then [EvTransition STATE_INIT STATE_IDLE]
              else [EvTransition STATE_ERROR STATE_IDLE; EvTransition STATE_INIT STATE_ERROR]).
Proof.
  unfold main_prologue, initialize_sateliot_config, get_config, update_config, bind, gets,
    modify, ret, emit, skip.
  destruct (wdt_err =? 0) eqn:Hw; cbn.
  - apply Z.eqb_eq in Hw.
    destruct (lte_err =? 0), (gnss_err =? 0); cbn;
      repeat split; try reflexivity; intros; try lia.
  - apply Z.eqb_neq in Hw.
    repeat split; try reflexivity; intros; try lia.
Qed.

Definition is_connect (ev : event) : bool :=
  match ev with EvConnect => true | _ => false end.

Lemma configure_no_connect (e : env) (w : world) :
  filter is_connect (trace (snd (configure_nordic_for_sateliot e w))) =
    filter is_connect (trace w).
Proof.
  unfold configure_nordic_for_sateliot, check, at_printf, bind, emit,
    modify, get_config, gets, ret.
  cbn. split_ifs; reflexivity.
Qed.

(** X21: in [ATTEMPTING_CONNECTION_STEP1], a modem configuration error
    moves the machine to [ERROR] (recording STEP1 as the last good state)
    without requesting a connection, waiting for registration or letting
    time pass. *)
Theorem step1_config_error (e : env) (w : world) :
  current_state w = STATE_ATTEMPTING_CONNECTION_STEP1 ->
  fst (configure_nordic_for_sateliot e w) <> 0 ->
  let w' := snd (case_step1 e w) in
  current_state w' = STATE_ERROR /\
  last_good_state (recovery (config w')) = STATE_ATTEMPTING_CONNECTION_STEP1 /\
  current_attachment_step w' = ATTACH_STEP_1 /\
  uptime w' = uptime w /\
  lte_connected_sem w' = lte_connected_sem w /\
  filter is_connect (trace w') = filter is_connect (trace w).
Proof.
  intros Hs Hc. cbv zeta.
  refine (wp_elim (case_step1 e) (fun _ w' =>
    current_state w' = STATE_ERROR /\
    last_good_state (recovery (config w')) = STATE_ATTEMPTING_CONNECTION_STEP1 /\
    current_attachment_step w' = ATTACH_STEP_1 /\
    uptime w' = uptime w /\
    lte_connected_sem w' = lte_connected_sem w /\
    filter is_connect (trace w') = filter is_connect (trace w)) w _).
  unfold case_step1, CURRENT_INTEGRATION_PHASE. wp_auto.
  apply wp_call_i.
  pose proof (configure_no_connect e (with_attachment_step ATTACH_STEP_1 w)) as Hn.
  rewrite (configure_result e (with_attachment_step ATTACH_STEP_1 w) w eq_refl) in *.
  rewrite (configure_frame e (with_attachment_step ATTACH_STEP_1 w)) in *.
  destruct (configure_nordic_for_sateliot e (with_attachment_step ATTACH_STEP_1 w)) as [r w1].
  cbn [fst snd] in *. wsimpl. wsimpl_in Hn.
  rewrite (proj2 (Z.eqb_neq _ _) Hc). cbv [negb].
  apply wp_bind_i, wp_set_state_i. rewrite set_state_eq. wsimpl. rewrite Hs. cbn.
  unfold skip. wp_auto. wsimpl.
  repeat split; try reflexivity. exact Hn.
Qed.

Definition modem_fault_env : env :=
  mk_env (fun _ => - EIO) None None [] [] (0, 0, 0) (fun _ => SENDTO_OK)
    (fun _ _ _ _ _ => EmptyString).

Lemma step1_config_error_witness :
  current_state (with_current_state STATE_ATTEMPTING_CONNECTION_STEP1 booted_world) =
    STATE_ATTEMPTING_CONNECTION_STEP1 /\
  fst (configure_nordic_for_sateliot modem_fault_env
         (with_current_state STATE_ATTEMPTING_CONNECTION_STEP1 booted_world)) <> 0 /\
  current_state (snd (case_step1 modem_fault_env
         (with_current_state STATE_ATTEMPTING_CONNECTION_STEP1 booted_world))) = STATE_ERROR.
Proof.
  assert (H1 : current_state (with_current_state STATE_ATTEMPTING_CONNECTION_STEP1 booted_world) =
    STATE_ATTEMPTING_CONNECTION_STEP1) by reflexivity.
  assert (H2 : fst (configure_nordic_for_sateliot modem_fault_env
         (with_current_state STATE_ATTEMPTING_CONNECTION_STEP1 booted_world)) <> 0)
    by (vm_compute; discriminate).
  split; [exact H1|split; [exact H2|]].
  exact (proj1 (step1_config_error modem_fault_env
    (with_current_state STATE_ATTEMPTING_CONNECTION_STEP1 booted_world) H1 H2)).
Defined.


Lemma run_all_app {A} (h : A -> M unit) (l1 l2 : list A) (w : world) :
  snd (run_all h (l1 ++ l2) w) = snd (run_all h l2 (snd (run_all h l1 w))).
Proof.
  revert w. induction l1 as [|x l1 IH]; intros w; [reflexivity|].
  cbn [app run_all]. unfold bind. destruct (h x w) as [u w1]. apply IH.
Qed.

Lemma run_all_one {A} (h : A -> M unit) (x : A) (w : world) :
  snd (run_all h [x] w) = snd (h x w).
Proof. cbn. unfold bind, skip, ret. destruct (h x w); reflexivity. Qed.

Lemma gnss_handler_eq (evt : gnss_evt) (w : world) :
  snd (gnss_event_handler evt w) =
    match evt with
    | GNSS_EVT_PVT err v d =>
        if err =? 0 then
          if v then
            with_gps_sem (Z.min (gps_fix_sem w + 1) 1)
              (map_config (with_coordinates (fix_lat d) (fix_lon d) (fix_alt d))
                 (with_gps_data true d w))
          else with_gps_data false d w
        else w
    | GNSS_EVT_OTHER => w
    end.
Proof.
  destruct evt as [err v d|]; [|reflexivity].
  destruct (err =? 0) eqn:E; [destruct v|]; unfold gnss_event_handler;
    rewrite E; destruct w; reflexivity.
Qed.

Lemma with_coordinates_twice (a b c a' b' c' : Q) (cfg : sateliot_config) :
  with_coordinates a b c (with_coordinates a' b' c' cfg) = with_coordinates a b c cfg.
Proof. destruct cfg; reflexivity. Qed.

(** The frames a GNSS event writes into [last_gps_data] (flag and fields),
    and the fixes it hands to [update_device_coordinates]. *)
Definition pvt_read (evt : gnss_evt) : list (bool * gnss_fix) :=
  match evt with
  | GNSS_EVT_PVT err v d => if err =? 0 then [(v, d)] else []
  | GNSS_EVT_OTHER => []
  end.

Definition pvt_fix (evt : gnss_evt) : list gnss_fix :=
  match evt with
  | GNSS_EVT_PVT err v d => if (err =? 0) && v then [d] else []
  | GNSS_EVT_OTHER => []
  end.

(** X22: for a non-negative semaphore count, a batch of GNSS events leaves
    in [last_gps_data] (and its [FIX_VALID] bit) the last frame read
    successfully, with or without a fix; the device coordinates are those
    of the last frame with a valid fix, which marks them valid and
    saturates [gps_fix_sem] at 1; without such a frame the configuration
    and the semaphore are unchanged, so a later frame without a fix clears
    the flag but keeps the coordinates.  The state, clock and trace are
    left alone. *)
Theorem gnss_batch_effect (l : list gnss_evt) (w : world) :
  0 <= gps_fix_sem w ->
  let w' := snd (run_all gnss_event_handler l w) in
  (gps_fix_flag w', last_gps_data w') =
    last (flat_map pvt_read l) (gps_fix_flag w, last_gps_data w) /\
  match last (map Some (flat_map pvt_fix l)) None with
  | Some d => config w' = with_coordinates (fix_lat d) (fix_lon d) (fix_alt d) (config w) /\
              gps_fix_sem w' = 1
  | None => config w' = config w /\ gps_fix_sem w' = gps_fix_sem w
  end /\
  current_state w' = current_state w /\ uptime w' = uptime w /\ trace w' = trace w.
Proof.
  intros Hs. cbv zeta.
  induction l as [|evt l IH] using rev_ind; [cbn; auto|].
  rewrite run_all_app, run_all_one, gnss_handler_eq, !flat_map_app.
  destruct IH as (Hr & Hf & Hc & Hu & Ht).
  set (w1 := snd (run_all gnss_event_handler l w)) in *.
  assert (Hs1 : 0 <= gps_fix_sem w1)
    by (destruct (last (map Some (flat_map pvt_fix l)) None); lia).
  destruct evt as [err v d|]; cbn [flat_map pvt_read pvt_fix];
    [|rewrite ?app_nil_r; wsimpl; auto].
  destruct (err =? 0); [|rewrite ?app_nil_r; wsimpl; auto].
  destruct v; cbn [andb]; rewrite ?app_nil_r; wsimpl.
  - rewrite map_app; cbn [map]. rewrite !last_last.
    rewrite Z.min_r by lia. cbn [fix_lat fix_lon fix_alt].
    split; [reflexivity|split; [|auto]]. split; [|reflexivity].
    destruct (last (map Some (flat_map pvt_fix l)) None) as [d'|]; destruct Hf as [Hf _];
      rewrite Hf; [apply with_coordinates_twice|reflexivity].
  - rewrite last_last. auto.
Qed.

Lemma gnss_batch_effect_witness :
  0 <= gps_fix_sem booted_world /\
  gps_fix_flag (snd (run_all gnss_event_handler
    [GNSS_EVT_PVT 0 true (mk_fix 41 2 100 7); GNSS_EVT_PVT 0 false (mk_fix 0 0 0 0);
     GNSS_EVT_PVT (- EIO) true (mk_fix 10 20 30 4); GNSS_EVT_OTHER] booted_world)) = false.
Proof.
  assert (H : 0 <= gps_fix_sem booted_world) by (vm_compute; discriminate).
  split; [exact H|].
  exact (f_equal fst (proj1 (gnss_batch_effect
    [GNSS_EVT_PVT 0 true (mk_fix 41 2 100 7); GNSS_EVT_PVT 0 false (mk_fix 0 0 0 0);
     GNSS_EVT_PVT (- EIO) true (mk_fix 10 20 30 4); GNSS_EVT_OTHER] booted_world H))).
Defined.
